(** * hobo.py: header scan and column mapping of HOBO logger exports

    A shallow embedding of [src/hobo.py] (class [Hobo], method [from_csv]
    and its nested functions) together with the parts of the Python
    runtime it relies on: [str] methods, the [re] search of [SN_REGEX],
    [csv.reader] with the default dialect and the few [pandas.DataFrame]
    operations that assemble the table. *)

From Stdlib Require Import List NArith ZArith Lia Bool String Ascii.
From stdpp Require Import gmap.
Import ListNotations.

Set Default Proof Using "Type".

(** ** Python values: exceptions, results, strings *)

(** The exceptions that can leave [from_csv].  [External] stands for
    whatever pandas or mooda raise; their internals are not modelled. *)
Inductive exn : Type :=
| StopIteration
| IndexError
| AttributeError
| UnboundLocalError
| ValueError
| TypeError
| csv_Error
| External (cls : string).

Definition exn_name (e : exn) : string :=
  match e with
  | StopIteration => "StopIteration"
  | IndexError => "IndexError"
  | AttributeError => "AttributeError"
  | UnboundLocalError => "UnboundLocalError"
  | ValueError => "ValueError"
  | TypeError => "TypeError"
  | csv_Error => "Error"
  | External cls => cls
  end.

(** An expression either evaluates to a value or raises. *)
Inductive res (A : Type) : Type :=
| Ok (a : A)
| Err (e : exn).
Arguments Ok {A} a.
Arguments Err {A} e.

Definition res_bind {A B : Type} (r : res A) (k : A -> res B) : res B :=
  match r with
  | Ok a => k a
  | Err e => Err e
  end.

Notation "x <-? c ;; k" := (res_bind c (fun x => k))
  (at level 100, c at next level, k at level 200, right associativity).

(** [l[i]] for a non-negative index. *)
Definition getitem {A : Type} (l : list A) (i : nat) : res A :=
  match nth_error l i with
  | Some a => Ok a
  | None => Err IndexError
  end.

(** A Python [str] is a sequence of Unicode code points. *)
Definition pystr : Type := list N.

Module Py.

Local Open Scope N_scope.

(** Literals are written as Rocq strings, which hold UTF-8 bytes. *)
Fixpoint utf8_decode (bs : list N) : pystr :=
  match bs with
  | [] => []
  | b :: r =>
      if b <? 128 then b :: utf8_decode r
      else if b <? 224 then
        match r with
        | b1 :: r1 => ((b - 192) * 64 + (b1 - 128)) :: utf8_decode r1
        | [] => []
        end
      else if b <? 240 then
        match r with
        | b1 :: b2 :: r2 =>
            ((b - 224) * 4096 + (b1 - 128) * 64 + (b2 - 128)) :: utf8_decode r2
        | _ => []
        end
      else
        match r with
        | b1 :: b2 :: b3 :: r3 =>
            ((b - 240) * 262144 + (b1 - 128) * 4096 + (b2 - 128) * 64 + (b3 - 128))
              :: utf8_decode r3
        | _ => []
        end
  end.

Definition str (s : string) : pystr :=
  utf8_decode (List.map N_of_ascii (list_ascii_of_string s)).

Definition comma : N := 44.
Definition colon : N := 58.
Definition space : N := 32.
Definition rparen : N := 41.
Definition dquote : N := 34.
Definition LF : N := 10.
Definition CR : N := 13.
Definition NUL : N := 0.

(** [str.isspace] on one code point ([_PyUnicode_IsWhitespace]). *)
Definition isspace (c : N) : bool :=
  ((9 <=? c) && (c <=? 13)) || ((28 <=? c) && (c <=? 32))
  || (c =? 133) || (c =? 160) || (c =? 5760)
  || ((8192 <=? c) && (c <=? 8202))
  || (c =? 8232) || (c =? 8233) || (c =? 8239) || (c =? 8287) || (c =? 12288).

(** First code point of every run of ten decimal digits (category Nd,
    Unicode 14); the mathematical digits 1D7CE..1D7FF form one longer
    run. *)
Definition Nd_runs : list N :=
  [48; 1632; 1776; 1984; 2406; 2534; 2662; 2790; 2918; 3046; 3174; 3302;
   3430; 3558; 3664; 3792; 3872; 4160; 4240; 6112; 6160; 6470; 6608; 6784;
   6800; 6992; 7088; 7232; 7248; 42528; 43216; 43264; 43472; 43504; 43600;
   44016; 65296; 66720; 68912; 69734; 69872; 69942; 70096; 70384; 70736;
   70864; 71248; 71360; 71472; 71904; 72016; 72784; 73040; 73120; 92768;
   92864; 93008; 123200; 123632; 125264; 130032].

(** What [\d] matches in a [str] pattern ([Py_UNICODE_ISDECIMAL]). *)
Definition isdecimal (c : N) : bool :=
  existsb (fun s => (s <=? c) && (c <? s + 10)) Nd_runs
  || ((120782 <=? c) && (c <=? 120831)).

(** [a == b] *)
Fixpoint eqb (a b : pystr) : bool :=
  match a, b with
  | [], [] => true
  | x :: a', y :: b' => (x =? y) && eqb a' b'
  | _, _ => false
  end.

(** [a.startswith(p)] *)
Fixpoint startswith (p s : pystr) : bool :=
  match p, s with
  | [], _ => true
  | _ :: _, [] => false
  | a :: p', b :: s' => (a =? b) && startswith p' s'
  end.

(** [sub in s] *)
Fixpoint contains (sub s : pystr) : bool :=
  startswith sub s ||
  match s with
  | [] => false
  | _ :: s' => contains sub s'
  end.

Fixpoint dropwhile (p : N -> bool) (s : pystr) : pystr :=
  match s with
  | [] => []
  | c :: s' => if p c then dropwhile p s' else s
  end.

Fixpoint takewhile (p : N -> bool) (s : pystr) : pystr :=
  match s with
  | [] => []
  | c :: s' => if p c then c :: takewhile p s' else []
  end.

Definition lstrip_by (p : N -> bool) (s : pystr) : pystr := dropwhile p s.
Definition rstrip_by (p : N -> bool) (s : pystr) : pystr :=
  rev (dropwhile p (rev s)).

(** [s.strip()] *)
Definition strip (s : pystr) : pystr := rstrip_by isspace (lstrip_by isspace s).

(** [s.strip(chars)] *)
Definition strip_chars (chars s : pystr) : pystr :=
  let p := fun c => existsb (N.eqb c) chars in
  rstrip_by p (lstrip_by p s).

Definition cons_head (c : N) (l : list pystr) : list pystr :=
  match l with
  | [] => [[c]]
  | h :: t => (c :: h) :: t
  end.

(** [s.split(sep, maxsplit)] for a separator of one code point;
    [maxsplit = None] is Python's default [-1] (no limit). *)
Fixpoint split (sep : N) (maxsplit : option nat) (s : pystr) : list pystr :=
  match s with
  | [] => [[]]
  | c :: s' =>
      if (c =? sep) && negb (if maxsplit is Some O then true else false)
      then [] :: split sep (Nat.pred <$> maxsplit) s'
      else cons_head c (split sep maxsplit s')
  end.

(** [s.rsplit(sep, maxsplit)]: the same cuts, counted from the right. *)
Definition rsplit (sep : N) (maxsplit : option nat) (s : pystr) : list pystr :=
  rev (List.map (@rev N) (split sep maxsplit (rev s))).

End Py.

(** ** [csv.reader] with the default dialect

    The state machine of CPython's [_csv.c], specialised to the dialect
    [excel] (delimiter comma, quotechar double quote, doublequote, no
    escapechar, no skipinitialspace, not strict).  Without an escapechar the two escape
    states are unreachable and are left out.  A line holding a NUL is
    refused, as CPython does before 3.11. *)
Module Csv.

Local Open Scope N_scope.
Import Py.

Inductive ParserState : Type :=
| START_RECORD
| START_FIELD
| IN_FIELD
| IN_QUOTED_FIELD
| QUOTE_IN_QUOTED_FIELD
| EAT_CRNL.

Record ReaderObj : Type := mkReader {
  state : ParserState;
  fields : list pystr;
  field : pystr
}.

Definition field_limit : N := 131072.

Definition set_state (r : ReaderObj) (s : ParserState) : ReaderObj :=
  mkReader s (fields r) (field r).

Definition parse_reset : ReaderObj := mkReader START_RECORD [] [].

Definition parse_save_field (r : ReaderObj) : ReaderObj :=
  mkReader (state r) (fields r ++ [field r]) [].

Definition parse_add_char (r : ReaderObj) (c : N) : res ReaderObj :=
  if field_limit <=? N.of_nat (length (field r)) then Err csv_Error
  else Ok (mkReader (state r) (fields r) (field r ++ [c])).

(** End of a record: the field is saved; the NUL that the reader feeds
    after each line closes the record, a newline still has to be eaten. *)
Definition end_of_line (r : ReaderObj) (c : N) : ReaderObj :=
  set_state (parse_save_field r) (if c =? NUL then START_RECORD else EAT_CRNL).

Definition is_eol (c : N) : bool := (c =? LF) || (c =? CR) || (c =? NUL).

(** The case [START_FIELD], which [START_RECORD] falls through to. *)
Definition start_field (r : ReaderObj) (c : N) : res ReaderObj :=
  if is_eol c then Ok (end_of_line r c)
  else if c =? dquote then Ok (set_state r IN_QUOTED_FIELD)
  else if c =? comma then Ok (parse_save_field r)
  else r1 <-? parse_add_char r c ;; Ok (set_state r1 IN_FIELD).

Definition parse_process_char (r : ReaderObj) (c : N) : res ReaderObj :=
  match state r with
  | START_RECORD =>
      if c =? NUL then Ok r
      else if (c =? LF) || (c =? CR) then Ok (set_state r EAT_CRNL)
      else start_field (set_state r START_FIELD) c
  | START_FIELD => start_field r c
  | IN_FIELD =>
      if is_eol c then Ok (end_of_line r c)
      else if c =? comma then Ok (set_state (parse_save_field r) START_FIELD)
      else parse_add_char r c
  | IN_QUOTED_FIELD =>
      if c =? NUL then Ok r
      else if c =? dquote then Ok (set_state r QUOTE_IN_QUOTED_FIELD)
      else parse_add_char r c
  | QUOTE_IN_QUOTED_FIELD =>
      if c =? dquote then
        r1 <-? parse_add_char r c ;; Ok (set_state r1 IN_QUOTED_FIELD)
      else if c =? comma then Ok (set_state (parse_save_field r) START_FIELD)
      else if is_eol c then Ok (end_of_line r c)
      else r1 <-? parse_add_char r c ;; Ok (set_state r1 IN_FIELD)
  | EAT_CRNL =>
      if (c =? LF) || (c =? CR) then Ok r
      else if c =? NUL then Ok (set_state r START_RECORD)
      else Err csv_Error
  end.

(** The inner loop of [Reader_iternext] over the characters of a line. *)
Fixpoint process_line (r : ReaderObj) (line : pystr) : res ReaderObj :=
  match line with
  | [] => Ok r
  | c :: rest =>
      if c =? NUL then Err csv_Error
      else r1 <-? parse_process_char r c ;; process_line r1 rest
  end.

Definition in_quoted_field (r : ReaderObj) : bool :=
  if state r is IN_QUOTED_FIELD then true else false.

Definition at_start_record (r : ReaderObj) : bool :=
  if state r is START_RECORD then true else false.

(** The [do ... while (state != START_RECORD)] loop of [Reader_iternext]
    over the lines still held by the input iterator. *)
Fixpoint Reader_iternext_loop (input : list pystr) (r : ReaderObj)
  : res (list pystr) :=
  match input with
  | [] =>
      if negb (PeanoNat.Nat.eqb (length (field r)) 0) || in_quoted_field r
      then Ok (fields (parse_save_field r))
      else Err StopIteration
  | line :: rest =>
      r1 <-? process_line r line ;;
      r2 <-? parse_process_char r1 NUL ;;
      if at_start_record r2 then Ok (fields r2)
      else Reader_iternext_loop rest r2
  end.

(** The lines a [StringIO] yields: cut after every [\n], nothing else. *)
Fixpoint StringIO_lines (cur s : pystr) : list pystr :=
  match s with
  | [] => match cur with [] => [] | _ => [cur] end
  | c :: s' =>
      if c =? LF then (cur ++ [c]) :: StringIO_lines [] s'
      else StringIO_lines (cur ++ [c]) s'
  end.

(** [next(csv.reader(StringIO(header)))] *)
Definition first_row (header : pystr) : res (list pystr) :=
  Reader_iternext_loop (StringIO_lines [] header) parse_reset.

End Csv.

(** ** [SN_REGEX = re.compile(r'(?:LGR S/N: |Serial Number:)(\d+)')] *)
Module Re.

Import Py.

Definition kw_LGR : pystr := Eval cbv in str "LGR S/N: ".
Definition kw_Serial : pystr := Eval cbv in str "Serial Number:".

(** What follows the literal [kw] at the start of [s]. *)
Fixpoint after_literal (kw s : pystr) : option pystr :=
  match kw, s with
  | [], _ => Some s
  | _ :: _, [] => None
  | a :: kw', b :: s' => if N.eqb a b then after_literal kw' s' else None
  end.

(** One alternative followed by the group [(\d+)], greedy. *)
Definition digits_after (kw s : pystr) : option pystr :=
  match after_literal kw s with
  | Some rest =>
      match takewhile isdecimal rest with
      | [] => None
      | ds => Some ds
      end
  | None => None
  end.

(** A match starting at the first character: the alternatives in the
    order of the pattern; the result is [groups()[0]]. *)
Definition SN_REGEX_match (s : pystr) : option pystr :=
  match digits_after kw_LGR s with
  | Some ds => Some ds
  | None => digits_after kw_Serial s
  end.

(** [SN_REGEX.search(s)]: the leftmost position with a match. *)
Fixpoint SN_REGEX_search (s : pystr) : option pystr :=
  match SN_REGEX_match s with
  | Some ds => Some ds
  | None =>
      match s with
      | [] => None
      | _ :: s' => SN_REGEX_search s'
      end
  end.

End Re.

(** ** The few [pandas.DataFrame] operations of [from_csv]

    A frame is its row index and its columns in order; a column label is
    a Python value, here a [str] or [None]. *)
Module DataFrame.

Import Py.

Inductive value : Type :=
| Cell (raw : pystr)
| Int (z : Z).

Definition label : Type := option pystr.

Definition label_eqb (a b : label) : bool :=
  match a, b with
  | None, None => true
  | Some x, Some y => eqb x y
  | _, _ => false
  end.

Record t : Type := mk {
  index : list pystr;
  columns : list (label * list value)
}.

(** [df.columns], [df.keys()] *)
Definition keys (df : t) : list label := List.map fst (columns df).

Definition relabel (col new : label) (c : label * list value)
  : label * list value :=
  if label_eqb (fst c) col then (new, snd c) else c.

(** [df.rename(columns={col: new}, inplace=True)] *)
Definition rename (col new : label) (df : t) : t :=
  mk (index df) (List.map (relabel col new) (columns df)).

Fixpoint unique (l : list label) : bool :=
  match l with
  | [] => true
  | x :: l' => negb (existsb (label_eqb x) l') && unique l'
  end.

Fixpoint labels_eqb (a b : list label) : bool :=
  match a, b with
  | [], [] => true
  | x :: a', y :: b' => label_eqb x y && labels_eqb a' b'
  | _, _ => false
  end.

Definition select (cols : list (label * list value)) (r : label)
  : list (label * list value) :=
  match List.find (fun c => label_eqb (fst c) r) cols with
  | Some c => [c]
  | None => []
  end.

(** [df.filter(items=items)], that is
    [df.reindex(columns=[r for r in items if r in df.columns])]: nothing
    to do when the target is the axis itself, a selection in the order
    of the target when the labels are unique, and a [ValueError] when a
    non-empty target meets duplicate labels. *)
Definition filter (items : list label) (df : t) : res t :=
  let target := List.filter (fun r => existsb (label_eqb r) (keys df)) items in
  if labels_eqb (keys df) target then Ok df
  else if unique (keys df) then
    Ok (mk (index df) (List.flat_map (select (columns df)) target))
  else if target is [] then Ok (mk (index df) [])
  else Err ValueError.

Definition assign (key : label) (col : list value) (c : label * list value)
  : label * list value :=
  if label_eqb (fst c) key then (fst c, col) else c.

(** [df[key] = z] for a scalar [z]: an existing column is overwritten,
    a new label is appended as the last column. *)
Definition setitem (key : label) (z : Z) (df : t) : t :=
  let col := List.map (fun _ => Int z) (index df) in
  if existsb (label_eqb key) (keys df)
  then mk (index df) (List.map (assign key col) (columns df))
  else mk (index df) (columns df ++ [(key, col)]).

(** ["{}_QC".format(key)] *)
Definition format_QC (key : label) : pystr :=
  match key with
  | Some s => s ++ str "_QC"
  | None => str "None_QC"
  end.

End DataFrame.

(** ** The instance state of [Hobo] *)

(** One value of the dict [self.name]: the list [[name, long_name,
    units]], initially [[None, None, None]]. *)
Record Entry : Type := mkEntry {
  item0 : option pystr;
  item1 : option pystr;
  item2 : option pystr
}.

(** [self.name], a dict with the four keys it is created with. *)
Record Names : Type := mkNames {
  temp : Entry;
  pres : Entry;
  rh : Entry;
  batt : Entry
}.

(** The attributes [from_csv] sets on [self].  [f] holds the lines the
    open file has not yielded yet; [headers] is unset until
    [find_columns] runs. *)
Record Hobo : Type := mkHobo {
  f : list pystr;
  title : option (list pystr);
  sn : option pystr;
  timestamp : option nat;
  name : Names;
  headers : option (list pystr)
}.

Definition set_f (v : list pystr) (self : Hobo) : Hobo :=
  mkHobo v (title self) (sn self) (timestamp self) (name self) (headers self).
Definition set_title (v : option (list pystr)) (self : Hobo) : Hobo :=
  mkHobo (f self) v (sn self) (timestamp self) (name self) (headers self).
Definition set_sn (v : option pystr) (self : Hobo) : Hobo :=
  mkHobo (f self) (title self) v (timestamp self) (name self) (headers self).
Definition set_timestamp (v : option nat) (self : Hobo) : Hobo :=
  mkHobo (f self) (title self) (sn self) v (name self) (headers self).
Definition set_name (v : Names) (self : Hobo) : Hobo :=
  mkHobo (f self) (title self) (sn self) (timestamp self) v (headers self).
Definition set_headers (v : option (list pystr)) (self : Hobo) : Hobo :=
  mkHobo (f self) (title self) (sn self) (timestamp self) (name self) v.

Definition set_temp (e : Entry) (n : Names) : Names :=
  mkNames e (pres n) (rh n) (batt n).
Definition set_pres (e : Entry) (n : Names) : Names :=
  mkNames (temp n) e (rh n) (batt n).
Definition set_rh (e : Entry) (n : Names) : Names :=
  mkNames (temp n) (pres n) e (batt n).
Definition set_batt (e : Entry) (n : Names) : Names :=
  mkNames (temp n) (pres n) (rh n) e.

(** Code that reads and writes [self] and may raise: an exception leaves
    the attributes as they were when it was raised. *)
Definition M (A : Type) : Type := Hobo -> res A * Hobo.

Definition ret {A : Type} (a : A) : M A := fun self => (Ok a, self).
Definition raise {A : Type} (e : exn) : M A := fun self => (Err e, self).
Definition bind {A B : Type} (m : M A) (k : A -> M B) : M B :=
  fun self =>
    match m self with
    | (Ok a, self') => k a self'
    | (Err e, self') => (Err e, self')
    end.
Definition get : M Hobo := fun self => (Ok self, self).
Definition modify (g : Hobo -> Hobo) : M unit := fun self => (Ok tt, g self).
Definition lift {A : Type} (r : res A) : M A := fun self => (r, self).

Notation "x <- c ;; k" := (bind c (fun x => k))
  (at level 100, c at next level, k at level 200, right associativity).
Notation "c ;;; k" := (bind c (fun _ => k))
  (at level 100, k at level 200, right associativity).

(** [for x in l: body(x)] *)
Fixpoint for_each {A : Type} (l : list A) (body : A -> M unit) : M unit :=
  match l with
  | [] => ret tt
  | x :: l' => body x ;;; for_each l' body
  end.

(** [if c: body] *)
Definition when (c : bool) (body : M unit) : M unit :=
  if c then body else ret tt.

(** ** The nested functions of [from_csv] *)

Import Py.

Definition find_units (header : pystr) : res pystr :=
  part <-? getitem (split comma (Some 2) header) 1 ;;
  let header_units := strip part in
  units <-? getitem (split space None header_units) 0 ;;
  Ok (strip units).

Definition find_name (header : pystr) : res pystr :=
  part <-? getitem (rsplit comma (Some 1) header) 1 ;;
  let header_name := strip_chars (str " )") part in
  tag <-? getitem (split colon None header_name) 0 ;;
  if eqb (strip tag) (str "LBL") then
    lbl <-? getitem (split colon None header_name) 1 ;;
    Ok (strip lbl)
  else
    first <-? getitem (split comma (Some 1) header) 0 ;;
    Ok (strip first).

Definition find_long_name (header : pystr) : res pystr :=
  first <-? getitem (split comma (Some 1) header) 0 ;;
  Ok (strip first).

Definition is_timestamp (header : pystr) : bool :=
  contains (str "Date Time") header || contains (str "Fecha Tiempo") header.

(** [enumerate(headers)] from position [i]; falling off the loop returns
    [None]. *)
Fixpoint find_col_timestamp_from (i : nat) (headers : list pystr) : option nat :=
  match headers with
  | [] => None
  | header :: rest =>
      if is_timestamp header then Some i
      else find_col_timestamp_from (S i) rest
  end.

Definition find_col_timestamp (headers : list pystr) : option nat :=
  find_col_timestamp_from 0 headers.

(** The list [[find_name(header), find_long_name(header),
    find_units(header)]], evaluated left to right. *)
Definition entry_of (header : pystr) : res Entry :=
  n <-? find_name header ;;
  l <-? find_long_name header ;;
  u <-? find_units header ;;
  Ok (mkEntry (Some n) (Some l) (Some u)).

(** [self.name[key] = [find_name(header), ...]] for the key written by
    [set_key]. *)
Definition assign_name (set_key : Entry -> Names -> Names) (header : pystr)
  : M unit :=
  e <- lift (entry_of header) ;;
  modify (fun self => set_name (set_key e (name self)) self).

Definition is_high_res (header : pystr) : bool :=
  contains (str "High Res. Temp.") header || contains (str "High-Res Temp") header.

Definition temp_markers : list pystr :=
  [str "Temp,"; str "Temp."; str "Temperature"].

Definition find_col_temperature (headers : list pystr) : M unit :=
  for_each headers (fun header =>
    when (is_high_res header) (assign_name set_temp header)) ;;;
  for_each headers (fun header =>
    for_each temp_markers (fun s =>
      when (contains s header) (assign_name set_temp header))).

Definition find_col_preassure (headers : list pystr) : M unit :=
  for_each headers (fun header =>
    when (contains (str "Pres abs,") header) (assign_name set_pres header)).

Definition find_col_rh (headers : list pystr) : M unit :=
  for_each headers (fun header =>
    when (contains (str "RH,") header) (assign_name set_rh header)).

Definition find_col_battery (headers : list pystr) : M unit :=
  for_each headers (fun header =>
    when (contains (str "Batt, V") header) (assign_name set_batt header)).

Definition find_columns (header : pystr) : M unit :=
  headers <- lift (Csv.first_row header) ;;
  modify (set_headers (Some headers)) ;;;
  modify (set_timestamp (find_col_timestamp headers)) ;;;
  find_col_temperature headers ;;;
  find_col_preassure headers ;;;
  find_col_rh headers ;;;
  find_col_battery headers.

(** The body of the [while] loop of [find_headers] once [next(self.f)]
    has yielded [header]. *)
Definition scan_line (header : pystr) : M unit :=
  self <- get ;;
  when (if title self is None then true else false)
    (modify (set_title (Some (split colon None (strip header))))) ;;;
  self <- get ;;
  when (if sn self is None then true else false)
    (modify (set_sn (Re.SN_REGEX_search header))) ;;;
  find_columns header.

(** [while self.timestamp is None: header = next(self.f); ...] followed
    by [return header].  [file] is what [self.f] still holds when the
    condition is tested, [header] the local variable, unbound before
    the first round.  The file is one that is read to its end: once it
    is exhausted [next] raises [StopIteration].  A file whose reading
    fails before its end is the subject of [find_headers_loop_until]
    below. *)
Fixpoint find_headers_loop (file : list pystr) (header : option pystr)
  : M pystr :=
  fun self =>
    match timestamp self with
    | Some _ =>
        match header with
        | Some h => (Ok h, self)
        | None => (Err UnboundLocalError, self)
        end
    | None =>
        match file with
        | [] => (Err StopIteration, self)
        | line :: rest =>
            (modify (set_f rest) ;;;
             scan_line line ;;;
             find_headers_loop rest (Some line)) self
        end
    end.

Definition find_headers : M pystr :=
  fun self => find_headers_loop (f self) None self.

(** ** A file whose reading may fail

    [self.f] is opened in text mode with [encoding='utf-8-sig'], so
    [next(self.f)] stops yielding lines in one of two ways: with
    [StopIteration] at the end of the file, or with the error of the
    text layer, a [UnicodeDecodeError] when it meets bytes that are no
    UTF-8.  [f] holds the lines that are yielded before that, and the
    [Ending] says how the file stops. *)
Inductive Ending : Type :=
| EndOfFile
| ReadError (e : exn).

Definition UnicodeDecodeError : exn := External "UnicodeDecodeError".

(** What [next(self.f)] raises once the lines of [f] are used up. *)
Definition next_raises (stop : Ending) : exn :=
  match stop with
  | EndOfFile => StopIteration
  | ReadError e => e
  end.

(** The loop of [find_headers] on a file that stops with [stop]. *)
Fixpoint find_headers_loop_until (stop : Ending) (file : list pystr)
    (header : option pystr) : M pystr :=
  fun self =>
    match timestamp self with
    | Some _ =>
        match header with
        | Some h => (Ok h, self)
        | None => (Err UnboundLocalError, self)
        end
    | None =>
        match file with
        | [] => (Err (next_raises stop), self)
        | line :: rest =>
            (modify (set_f rest) ;;;
             scan_line line ;;;
             find_headers_loop_until stop rest (Some line)) self
        end
    end.

Definition find_headers_until (stop : Ending) : M pystr :=
  fun self => find_headers_loop_until stop (f self) None self.

(** ** The body of [from_csv] after the header scan *)

(** [l[0]], [l[1]] and [s.strip()] fail on [None]. *)
Definition subscriptable {A : Type} (o : option (list A)) : res (list A) :=
  match o with
  | Some l => Ok l
  | None => Err TypeError
  end.

Definition has_strip (o : option pystr) : res pystr :=
  match o with
  | Some s => Ok s
  | None => Err AttributeError
  end.

(** The item stored by [metadata[self.title[0]] = self.title[1].strip()]:
    the right-hand side is evaluated before the key. *)
Definition title_item (self : Hobo) : res (pystr * pystr) :=
  t1 <-? subscriptable (title self) ;;
  value <-? getitem t1 1 ;;
  t0 <-? subscriptable (title self) ;;
  key <-? getitem t0 0 ;;
  Ok (key, strip value).

(** The item stored by [metadata["S/N"] = self.sn.strip()]. *)
Definition serial_item (self : Hobo) : res (pystr * pystr) :=
  s <-? has_strip (sn self) ;;
  Ok (str "S/N", strip s).

Definition build_metadata (self : Hobo) : res (gmap pystr pystr) :=
  ti <-? title_item self ;;
  si <-? serial_item self ;;
  Ok (<[si.1 := si.2]> (<[ti.1 := ti.2]> ∅)).

Import DataFrame.

Fixpoint foldM {A B : Type} (g : B -> A -> res B) (l : list A) (b : B) : res B :=
  match l with
  | [] => Ok b
  | x :: l' => b' <-? g b x ;; foldM g l' b'
  end.

(** One round of [for col in df.columns: if 'Temp' in col: ... elif ...];
    [in] needs a [str] on its right. *)
Definition rename_column (names : Names) (df : DataFrame.t) (col : label)
  : res DataFrame.t :=
  match col with
  | None => Err TypeError
  | Some c =>
      if contains (str "Temp") c then Ok (rename col (item0 (temp names)) df)
      else if contains (str "Pres") c then Ok (rename col (item0 (pres names)) df)
      else if contains (str "Batt") c then Ok (rename col (item0 (batt names)) df)
      else if contains (str "RH") c then Ok (rename col (item0 (rh names)) df)
      else Ok df
  end.

(** The loop runs over the labels the frame had when it started. *)
Definition rename_columns (names : Names) (df : DataFrame.t) : res DataFrame.t :=
  foldM (rename_column names) (keys df) df.

Definition filter_items (names : Names) : list label :=
  [item0 (temp names); item0 (pres names); item0 (batt names); item0 (rh names)].

(** [for key in df.keys(): df["{}_QC".format(key)] = 0] *)
Definition add_QC_keys (df : DataFrame.t) : DataFrame.t :=
  fold_left (fun d key => setitem (Some (format_QC key)) 0 d) (keys df) df.

(** Lines 165 to 182: rename, filter, add the QC keys. *)
Definition assemble (names : Names) (df : DataFrame.t) : res DataFrame.t :=
  renamed <-? rename_columns names df ;;
  retained <-? DataFrame.filter (filter_items names) renamed ;;
  Ok (add_QC_keys retained).

Record Meaning : Type := mkMeaning {
  long_name : option pystr;
  units : option pystr
}.

Record WaterFrame : Type := mkWaterFrame {
  metadata : gmap pystr pystr;
  data : DataFrame.t;
  meaning : gmap label Meaning
}.

Definition set_meaning (parameter : label) (m : Meaning) (wf : WaterFrame)
  : WaterFrame :=
  mkWaterFrame (metadata wf) (data wf) (<[parameter := m]> (meaning wf)).

(** [self.name.items()], in the order the dict was created. *)
Definition name_items (names : Names) : list (pystr * Entry) :=
  [(str "temp", temp names); (str "pres", pres names);
   (str "rh", rh names); (str "batt", batt names)].

(** Lines 188 to 191 for the parameters [ps]. *)
Definition add_meaning (names : Names) (ps : list label) (wf : WaterFrame)
  : WaterFrame :=
  fold_left (fun w parameter =>
    fold_left (fun w' kv =>
      if label_eqb (item0 kv.2) parameter
      then set_meaning parameter (mkMeaning (item1 kv.2) (item2 kv.2)) w'
      else w') (name_items names) w) ps wf.

(** What [from_csv] calls and this repository does not define: the
    pandas reading of the rest of the file (lines 152 to 163, from
    [read_csv] to the renamed datetime index) and the methods of mooda's
    [WaterFrame]. *)
Record Collaborators : Type := mkCollaborators {
  read_table : list pystr -> list pystr -> option nat -> res DataFrame.t;
  parameters : WaterFrame -> list label;
  reset_flag : label -> Z -> WaterFrame -> res WaterFrame;
  flat_test : label -> Z -> Z -> WaterFrame -> res WaterFrame;
  spike_test : label -> Z -> Z -> Z -> WaterFrame -> res WaterFrame;
  range_test : label -> Z -> WaterFrame -> res WaterFrame;
  flag2flag : label -> Z -> Z -> WaterFrame -> res WaterFrame
}.

Definition initial_names : Names :=
  let none := mkEntry None None None in mkNames none none none none.

Section FromCsv.

Context (ext : Collaborators).

(** Lines 196 to 206 for one parameter. *)
Definition qc_parameter (wf : WaterFrame) (parameter : label) : res WaterFrame :=
  w1 <-? reset_flag ext parameter 0 wf ;;
  w2 <-? flat_test ext parameter 0 4 w1 ;;
  w3 <-? spike_test ext parameter 0 3 4 w2 ;;
  w4 <-? range_test ext parameter 4 w3 ;;
  flag2flag ext parameter 0 1 w4.

(** [from_csv(qc_tests)] on an instance whose [path] opens as a text
    file yielding the lines [file].  The two [print] calls are left out. *)
Definition from_csv (file : list pystr) (qc_tests : bool) : M WaterFrame :=
  modify (set_f file) ;;;
  modify (set_title None) ;;;
  modify (set_sn None) ;;;
  modify (set_timestamp None) ;;;
  modify (set_name initial_names) ;;;
  find_headers ;;;
  self <- get ;;
  md <- lift (build_metadata self) ;;
  hs <- lift (match headers self with
              | Some hs => Ok hs
              | None => Err AttributeError
              end) ;;
  modify (set_f []) ;;;
  df <- lift (read_table ext (f self) hs (timestamp self)) ;;
  df <- lift (assemble (name self) df) ;;
  let wf := mkWaterFrame md df ∅ in
  let wf := add_meaning (name self) (parameters ext wf) wf in
  if qc_tests then lift (foldM qc_parameter (parameters ext wf) wf)
  else ret wf.

End FromCsv.

(** A fresh instance: no attribute of the scan is set yet. *)
Definition new_Hobo : Hobo := mkHobo [] None None None initial_names None.

(** ** A plain collaborator, for running [from_csv] on sample files

    It reads every remaining line as one CSV row of text cells, takes
    the timestamp column as the index, reports as parameters the labels
    without [_QC], and its QC tests change nothing. *)
Module Plain.

Definition without {A : Type} (i : option nat) (l : list A) : list A :=
  match i with
  | Some n => firstn n l ++ skipn (S n) l
  | None => l
  end.

Definition rows (file : list pystr) : res (list (list pystr)) :=
  foldM (fun acc line => r <-? Csv.first_row line ;; Ok (acc ++ [r])) file [].

Definition cell (row : list pystr) (j : nat) : value :=
  Cell (nth j row []).

Definition read_table (file names : list pystr) (i : option nat)
  : res DataFrame.t :=
  rs <-? rows file ;;
  let idx := List.map (fun r => nth (default 0%nat i) r []) rs in
  let cols := List.map (fun j => (Some (nth j names []), List.map (fun r => cell r j) rs))
                (without i (seq 0 (length names))) in
  Ok (DataFrame.mk idx cols).

Definition parameters (wf : WaterFrame) : list label :=
  List.filter (fun l => if l is Some s then negb (contains (str "_QC") s) else true)
    (keys (data wf)).

Definition collaborators : Collaborators :=
  mkCollaborators read_table parameters
    (fun _ _ wf => Ok wf) (fun _ _ _ wf => Ok wf) (fun _ _ _ _ wf => Ok wf)
    (fun _ _ wf => Ok wf) (fun _ _ _ wf => Ok wf).

End Plain.

(** ** Vocabulary of the statements *)

(** The timestamp column a line yields when it is read as a CSV record,
    if any. *)
Definition line_timestamp (line : pystr) : option nat :=
  match Csv.first_row line with
  | Ok hs => find_col_timestamp hs
  | Err _ => None
  end.

(** Column detection runs through on [line] without raising. *)
Definition columns_ok (line : pystr) : bool :=
  if (find_columns line new_Hobo).1 is Ok _ then true else false.

(** The field matches the second pass of [find_col_temperature]. *)
Definition is_fallback (header : pystr) : bool :=
  existsb (fun s => contains s header) temp_markers.

Definition zeros (df : DataFrame.t) : list value :=
  List.map (fun _ => Int 0) (index df).

Definition QC_label (key : label) : label := Some (format_QC key).

(** [self] as [from_csv] has set it up when it calls [find_headers]. *)
Definition prepared (file : list pystr) (self : Hobo) : Hobo :=
  set_name initial_names
    (set_timestamp None (set_sn None (set_title None (set_f file self)))).

(** [self] after the title and the serial number of [scan_line] have
    been looked at, before column detection. *)
Definition scanned (header : pystr) (self : Hobo) : Hobo :=
  let s1 := if title self is None
            then set_title (Some (split colon None (strip header))) self
            else self in
  if sn s1 is None then set_sn (Re.SN_REGEX_search header) s1 else s1.

(** The four passes that fill [self.name] from one header record. *)
Definition classify (headers : list pystr) : M unit :=
  find_col_temperature headers ;;;
  find_col_preassure headers ;;;
  find_col_rh headers ;;;
  find_col_battery headers.

(** Whatever [m] returns or raises, its final state is related by [R] to
    the state it started from. *)
Definition keeps (R : Hobo -> Hobo -> Prop) {A : Type} (m : M A) : Prop :=
  forall s, R s (m s).2.

(** Only [self.name] differs between the two states. *)
Definition only_name (s s' : Hobo) : Prop := s' = set_name (name s') s.

(** Whether [m] returns or raises, and what, is the same from every
    state. *)
Definition blind {A : Type} (m : M A) : Prop :=
  forall s1 s2, (m s1).1 = (m s2).1.

(** [self.name['temp'] = e] *)
Definition put_temp (e : Entry) (self : Hobo) : Hobo :=
  set_name (set_temp e (name self)) self.

(** The two states differ at most in [self.name['temp']]. *)
Definition same_but_temp (s0 s : Hobo) : Prop :=
  forall e, put_temp e s0 = put_temp e s.

(** The inner loop of the second pass on one field. *)
Definition try_markers (header : pystr) : M unit :=
  for_each temp_markers (fun s =>
    when (contains s header) (assign_name set_temp header)).



(** The two literals of [SN_REGEX]. *)
Definition SN_keyword (K : pystr) : Prop := K = Re.kw_LGR \/ K = Re.kw_Serial.

(** ** Sample files and tables *)

(** Sample lines: [q s] is the field [s] between double quotes, [row]
    joins fields with commas and ends the line. *)
Definition q (s : string) : pystr := dquote :: str s ++ [dquote].

Fixpoint join (sep : pystr) (l : list pystr) : pystr :=
  match l with
  | [] => []
  | [x] => x
  | x :: l' => x ++ sep ++ join sep l'
  end.

Definition row (fields : list pystr) : pystr := join [comma] fields ++ [LF].

Definition sample_file : list pystr :=
  [ row [q "Plot Title: 20563204"];
    row [q "#"; q "Date Time, GMT+00:00";
         q "Temp, °C (LGR S/N: 20563204, SEN S/N: 20563204)";
         q "Coupler Detached (LGR S/N: 20563204)"];
    row [str "1"; str "01/02/19 12:00:00"; str "21.5"; str ""];
    row [str "2"; str "01/02/19 12:10:00"; str "21.6"; str ""] ].

Definition sample_names : Names :=
  name (find_headers (prepared sample_file new_Hobo)).2.

(** The table read from [sample_file], with its two data columns. *)
Definition sample_frame : DataFrame.t :=
  DataFrame.mk [str "01/02/19 12:00:00"; str "01/02/19 12:10:00"]
    [(Some (str "#"), [Cell (str "1"); Cell (str "2")]);
     (Some (str "Temp, °C (LGR S/N: 20563204, SEN S/N: 20563204)"),
      [Cell (str "21.5"); Cell (str "21.6")]);
     (Some (str "Coupler Detached (LGR S/N: 20563204)"),
      [Cell (str ""); Cell (str "")])].

(** What follows the first line in a sample without a title: a serial
    number line, then the column-definition line and the rows of
    [sample_file]. *)
Definition untitled_file : list pystr :=
  row [q "Serial Number:20563204"] :: skipn 1 sample_file.

(** A well-formed export with a title and columns but no serial number
    anywhere. *)
Definition file_without_serial : list pystr :=
  [ row [q "Plot Title: pond"];
    row [q "#"; q "Date Time, GMT+00:00"; q "Temp, °C"];
    row [str "1"; str "01/02/19 12:00:00"; str "21.5"] ].


(** Two relabelled channels, the second named like the QC column of the
    first. *)
Definition clashing_header : pystr :=
  row [q "Date Time, GMT+00:00";
       q "Temp, °C (LGR S/N: 1, SEN S/N: 1, LBL: A)";
       q "Pres abs, kPa (LGR S/N: 1, SEN S/N: 1, LBL: A_QC)"].

Definition clashing_names : Names :=
  name (find_columns clashing_header new_Hobo).2.

Definition clashing_frame : DataFrame.t :=
  DataFrame.mk [str "01/02/19 12:00:00"; str "01/02/19 12:10:00"]
    [(Some (str "Temp, °C (LGR S/N: 1, SEN S/N: 1, LBL: A)"),
      [Cell (str "21.5"); Cell (str "21.6")]);
     (Some (str "Pres abs, kPa (LGR S/N: 1, SEN S/N: 1, LBL: A_QC)"),
      [Cell (str "101.3"); Cell (str "101.2")])].

(** ** Vocabulary of the further properties *)

(** The text of [s] before the first [sep], all of [s] without one. *)
Definition before_sep (sep : N) (s : pystr) : pystr :=
  takewhile (fun c => negb (N.eqb c sep)) s.

(** The text of [s] after the last [sep]. *)
Definition after_last (sep : N) (s : pystr) : pystr :=
  rev (before_sep sep (rev s)).

(** The segment [find_name] looks at for the tag [LBL]. *)
Definition trailing_segment (header : pystr) : pystr :=
  strip_chars (str " )") (after_last comma header).

(** The first value of a list of optional values. *)
Fixpoint first_some {A : Type} (l : list (option A)) : option A :=
  match l with
  | [] => None
  | Some a :: _ => Some a
  | None :: l' => first_some l'
  end.

(** [self.name[key] = e] for the key written by [set_key]. *)
Definition put (set_key : Entry -> Names -> Names) (e : Entry) (self : Hobo)
  : Hobo :=
  set_name (set_key e (name self)) self.

(** A later assignment to the key replaces an earlier one. *)
Definition overwrites (set_key : Entry -> Names -> Names) : Prop :=
  forall e1 e2 n, set_key e2 (set_key e1 n) = set_key e2 n.

(** One of the single passes: write the key for every field that holds
    [marker]. *)
Definition mark (marker : pystr) (set_key : Entry -> Names -> Names)
    (headers : list pystr) : M unit :=
  for_each headers (fun header =>
    when (contains marker header) (assign_name set_key header)).

(** No pass of [find_columns] selects the field. *)
Definition unmarked (header : pystr) : bool :=
  negb (is_high_res header) && negb (is_fallback header)
  && negb (contains (str "Pres abs,") header)
  && negb (contains (str "RH,") header)
  && negb (contains (str "Batt, V") header).

(** A character that [csv.reader] takes as it is outside quotes, the
    delimiter set aside. *)
Definition plain (c : N) : bool :=
  negb (N.eqb c dquote) && negb (N.eqb c LF) && negb (N.eqb c CR)
  && negb (N.eqb c NUL).

(** The exceptions of the header scan. *)
Definition scan_exn (e : exn) : Prop :=
  e = StopIteration \/ e = IndexError \/ e = csv_Error.

(** [m] raises nothing but exceptions in [P]. *)
Definition raises_only {A : Type} (P : exn -> Prop) (m : M A) : Prop :=
  forall s e s', m s = (Err e, s') -> P e.

(** The two states agree on everything but [self.headers]. *)
Definition same_but_headers (s s' : Hobo) : Prop :=
  set_headers None s = set_headers None s'.

(** The last slot of [self.name.items()] whose display name is [p]. *)
Definition last_slot (names : Names) (p : label) : option (pystr * Entry) :=
  List.find (fun kv => label_eqb (item0 kv.2) p) (rev (name_items names)).

(** A character that may stand between the double quotes of a field
    on one line. *)
Definition inside (c : N) : bool :=
  negb (N.eqb c dquote) && negb (N.eqb c NUL) && negb (N.eqb c LF).

(** A field between double quotes, and a line of such fields. *)
Definition quoted (s : pystr) : pystr := dquote :: s ++ [dquote].

Definition record (fields : list pystr) : pystr :=
  row (List.map quoted fields).

(** * Properties *)

(** Closes [forall l, In l file -> P l] for an explicit list. *)
Ltac each_line :=
  let l := fresh "l" in
  let H := fresh "H" in
  intros l H; cbn [In app f set_f new_Hobo] in H;
  repeat (destruct H as [<-|H]; [vm_compute; reflexivity|]);
  destruct H.


(** ** The runtime model on small inputs *)

Example str_decodes_utf8 : str "°C" = [176; 67]%N.
Proof. reflexivity. Qed.

Example split_maxsplit :
  split comma (Some 2%nat) (str "a,b,c,d") = [str "a"; str "b"; str "c,d"] /\
  rsplit comma (Some 1%nat) (str "a,b,c") = [str "a,b"; str "c"] /\
  split comma None (str "") = [str ""].
Proof. repeat split. Qed.

Example strip_chars_paren :
  strip_chars (str " )") (str " LBL: WaterTemp)") = str "LBL: WaterTemp".
Proof. reflexivity. Qed.

Example first_row_quoted_fields :
  Csv.first_row (row [q "#"; q "Date Time, GMT+00:00"; str "x"])
  = Ok [str "#"; str "Date Time, GMT+00:00"; str "x"].
Proof. vm_compute. reflexivity. Qed.

Example first_row_empty_line : Csv.first_row [LF] = Ok [].
Proof. reflexivity. Qed.

Example first_row_open_quote : Csv.first_row (dquote :: str "a" ++ [LF])
  = Ok [str "a" ++ [LF]].
Proof. vm_compute. reflexivity. Qed.

Example first_row_no_line : Csv.first_row [] = Err StopIteration.
Proof. reflexivity. Qed.

Example SN_REGEX_search_leftmost :
  Re.SN_REGEX_search (str "xx Serial Number:123 LGR S/N: 45") = Some (str "123") /\
  Re.SN_REGEX_search (str "LGR S/N: x Serial Number:7") = Some (str "7").
Proof. split; vm_compute; reflexivity. Qed.

Example descriptor_without_LBL :
  entry_of (str "Temp, °C (LGR S/N: 20563204, SEN S/N: 20563204)")
  = Ok (mkEntry (Some (str "Temp")) (Some (str "Temp")) (Some (str "°C"))).
Proof. vm_compute. reflexivity. Qed.

(** ** Strings *)

Section Strings.

Implicit Types (s k r : pystr) (c sep : N) (m : option nat).

Lemma split_no_sep sep m s : ~ In sep s -> split sep m s = [s].
Proof.
  induction s as [|c s IH]; intros Hs; [reflexivity|].
  cbn [split]. destruct (N.eqb_spec c sep) as [->|_].
  - exfalso. apply Hs. now left.
  - cbn. rewrite IH; [reflexivity|]. intros H. apply Hs. now right.
Qed.

Lemma split_at_sep sep m k r :
  ~ In sep k -> m <> Some 0%nat ->
  split sep m (k ++ sep :: r) = k :: split sep (Nat.pred <$> m) r.
Proof.
  intros Hk Hm. induction k as [|c k IH]; cbn [app split].
  - rewrite N.eqb_refl. destruct m as [[|n]|]; [congruence|reflexivity..].
  - destruct (N.eqb_spec c sep) as [->|_].
    + exfalso. apply Hk. now left.
    + cbn. rewrite IH; [reflexivity|]. intros H. apply Hk. now right.
Qed.

Lemma split_not_nil sep m s : split sep m s <> [].
Proof.
  destruct s as [|c s]; cbn [split]; [discriminate|].
  destruct (_ && _); [discriminate|].
  destruct (split sep m s); discriminate.
Qed.

Lemma rsplit_no_sep sep m s : ~ In sep s -> rsplit sep m s = [s].
Proof.
  intros Hs. unfold rsplit. rewrite split_no_sep.
  - cbn. now rewrite rev_involutive.
  - now rewrite <- in_rev.
Qed.

Lemma In_dropwhile p c s : In c (dropwhile p s) -> In c s.
Proof.
  induction s as [|a s IH]; cbn; [tauto|].
  destruct (p a); cbn; tauto.
Qed.

Lemma In_strip c s : In c (strip s) -> In c s.
Proof.
  unfold strip, rstrip_by, lstrip_by. intros H.
  apply in_rev, In_dropwhile, in_rev in H.
  now apply In_dropwhile in H.
Qed.

Lemma in_split_first sep s :
  In sep s -> exists k r, s = k ++ sep :: r /\ ~ In sep k.
Proof.
  induction s as [|c s IH]; intros H; [destruct H|].
  destruct (N.eq_dec c sep) as [->|Hne].
  - exists [], s. split; [reflexivity|]. intros [].
  - destruct H as [H|H]; [congruence|].
    destruct (IH H) as (k & r & -> & Hk).
    exists (c :: k), r. split; [reflexivity|].
    intros [E|E]; [congruence|tauto].
Qed.

End Strings.

(** ** Field decoding *)

Lemma getitem_0_split sep m s : exists x, getitem (split sep m s) 0 = Ok x.
Proof.
  destruct (split sep m s) as [|x l] eqn:E.
  - now apply split_not_nil in E.
  - now exists x.
Qed.

(** With a comma in the field, [find_units] returns a string. *)
Lemma find_units_comma header :
  In comma header -> exists units, find_units header = Ok units.
Proof.
  intros H. apply in_split_first in H as (k & r & -> & Hk).
  unfold find_units. rewrite split_at_sep by (trivial || discriminate).
  change (getitem (k :: split comma (Nat.pred <$> Some 2%nat) r) 1)
    with (getitem (split comma (Some 1%nat) r) 0).
  destruct (getitem_0_split comma (Some 1%nat) r) as (x & ->).
  cbn [res_bind].
  destruct (getitem_0_split space None (strip x)) as (y & ->).
  cbn [res_bind]. eauto.
Qed.

(** C3, as amended: a header field without a comma makes [find_units]
    raise [IndexError] (index 1 of a one-element split), and [find_name]
    likewise; no string is produced. *)
Theorem find_units_no_comma_raises header :
  ~ In comma header ->
  find_units header = Err IndexError /\ find_name header = Err IndexError.
Proof.
  intros H. unfold find_units, find_name.
  rewrite split_no_sep, rsplit_no_sep by assumption.
  split; reflexivity.
Qed.

Lemma find_units_no_comma_raises_witness :
  ~ In comma (str "Temp") /\
  find_units (str "Temp") = Err IndexError /\
  find_name (str "Temp") = Err IndexError.
Proof.
  assert (H : ~ In comma (str "Temp")).
  { intros H. vm_compute in H. intuition discriminate. }
  split; [exact H|]. exact (find_units_no_comma_raises (str "Temp") H).
Defined.

(** C3 as stated fails: the comma-free field [Temp] yields no string. *)
Lemma find_units_no_comma_not_total :
  ~ In comma (str "Temp") /\
  ~ exists garbage, find_units (str "Temp") = Ok garbage.
Proof.
  split.
  - intros H. vm_compute in H. intuition discriminate.
  - intros [g H]. vm_compute in H. discriminate H.
Qed.

(** C8: the display name of a relabelled field is the text after the
    [LBL:] tag of the segment after the last comma, its long name is
    still the text before the first comma. *)
Theorem find_name_LBL_WaterTemp :
  find_name (str "Temp, °C (LGR S/N: 1, SEN S/N: 1, LBL: WaterTemp)")
    = Ok (str "WaterTemp") /\
  find_long_name (str "Temp, °C (LGR S/N: 1, SEN S/N: 1, LBL: WaterTemp)")
    = Ok (str "Temp").
Proof. split; vm_compute; reflexivity. Qed.

(** ** What the code on [self] leaves unchanged *)

Section Frames.

Variable R : Hobo -> Hobo -> Prop.
Hypothesis R_refl : forall s, R s s.
Hypothesis R_trans : forall s1 s2 s3, R s1 s2 -> R s2 s3 -> R s1 s3.

Lemma keeps_ret {A} (a : A) : keeps R (ret a).
Proof using R_refl. intros s. apply R_refl. Qed.

Lemma keeps_lift {A} (r : res A) : keeps R (lift r).
Proof using R_refl. intros s. apply R_refl. Qed.

Lemma keeps_modify g : (forall s, R s (g s)) -> keeps R (modify g).
Proof. intros H s. apply H. Qed.

Lemma keeps_bind {A B} (m : M A) (k : A -> M B) :
  keeps R m -> (forall a, keeps R (k a)) -> keeps R (bind m k).
Proof using R_trans.
  intros Hm Hk s. unfold bind. specialize (Hm s).
  destruct (m s) as [[a|e] s']; cbn in *; [|assumption].
  eapply R_trans; [eassumption|apply Hk].
Qed.

Lemma keeps_when c (m : M unit) : keeps R m -> keeps R (when c m).
Proof using R_refl. destruct c; cbn; [trivial|intros _; apply keeps_ret]. Qed.

Lemma keeps_for_each {A} (l : list A) body :
  (forall x, keeps R (body x)) -> keeps R (for_each l body).
Proof using R_refl R_trans.
  intros H. induction l as [|x l IH]; cbn [for_each].
  - apply keeps_ret.
  - apply keeps_bind; [apply H|intros _; apply IH].
Qed.

End Frames.

Lemma only_name_refl s : only_name s s.
Proof. now destruct s. Qed.

Lemma only_name_trans s1 s2 s3 :
  only_name s1 s2 -> only_name s2 s3 -> only_name s1 s3.
Proof. unfold only_name. intros H12 H23. rewrite H23, H12. reflexivity. Qed.

Lemma keeps_assign_name set_key header :
  keeps only_name (assign_name set_key header).
Proof.
  apply keeps_bind; [apply only_name_trans|apply keeps_lift, only_name_refl|].
  intros e. apply keeps_modify. intros s. reflexivity.
Qed.

Lemma keeps_mark (p : pystr -> bool) set_key headers :
  keeps only_name
    (for_each headers (fun header => when (p header) (assign_name set_key header))).
Proof.
  apply keeps_for_each; [apply only_name_refl|apply only_name_trans|].
  intros x. apply keeps_when; [apply only_name_refl|apply keeps_assign_name].
Qed.

Lemma keeps_classify headers : keeps only_name (classify headers).
Proof.
  pose proof only_name_refl as Hr. pose proof only_name_trans as Ht.
  unfold classify, find_col_temperature.
  repeat (apply keeps_bind; [assumption| |intros _]); try apply keeps_mark.
  apply keeps_for_each; [assumption..|]. intros x.
  apply keeps_for_each; [assumption..|]. intros m.
  apply keeps_when; [assumption|apply keeps_assign_name].
Qed.

Lemma find_columns_unfold header s :
  find_columns header s =
  match Csv.first_row header with
  | Ok hs =>
      classify hs (set_timestamp (find_col_timestamp hs) (set_headers (Some hs) s))
  | Err e => (Err e, s)
  end.
Proof. unfold find_columns, bind, lift, modify. now destruct (Csv.first_row header). Qed.

(** ** What the outcome of column detection depends on *)

Lemma blind_lift {A} (r : res A) : blind (lift r).
Proof. intros s1 s2. reflexivity. Qed.

Lemma blind_modify g : blind (modify g).
Proof. intros s1 s2. reflexivity. Qed.

Lemma blind_bind {A B} (m : M A) (k : A -> M B) :
  blind m -> (forall a, blind (k a)) -> blind (bind m k).
Proof.
  intros Hm Hk s1 s2. unfold bind. specialize (Hm s1 s2).
  destruct (m s1) as [r1 t1], (m s2) as [r2 t2]. cbn in Hm. subst r2.
  destruct r1; [apply Hk|reflexivity].
Qed.

Lemma blind_when c (m : M unit) : blind m -> blind (when c m).
Proof. destruct c; cbn; [trivial|intros _ s1 s2; reflexivity]. Qed.

Lemma blind_for_each {A} (l : list A) body :
  (forall x, blind (body x)) -> blind (for_each l body).
Proof.
  intros H. induction l as [|x l IH]; cbn [for_each].
  - intros s1 s2. reflexivity.
  - apply blind_bind; [apply H|intros _; apply IH].
Qed.

Lemma blind_assign_name set_key header : blind (assign_name set_key header).
Proof. apply blind_bind; [apply blind_lift|intros e; apply blind_modify]. Qed.

Lemma blind_classify headers : blind (classify headers).
Proof.
  unfold classify, find_col_temperature, find_col_preassure, find_col_rh,
    find_col_battery.
  repeat (apply blind_bind; [|intros _]);
    repeat (apply blind_for_each; intros ?);
    apply blind_when, blind_assign_name.
Qed.

Lemma blind_find_columns header : blind (find_columns header).
Proof.
  intros s1 s2. rewrite !find_columns_unfold.
  destruct (Csv.first_row header); [apply blind_classify|reflexivity].
Qed.

Lemma columns_ok_spec header s :
  columns_ok header = true <-> (find_columns header s).1 = Ok tt.
Proof.
  unfold columns_ok. rewrite (blind_find_columns header new_Hobo s).
  destruct (find_columns header s).1 as [[]|e]; split; congruence.
Qed.

(** What [find_columns] leaves on [self] when it runs through. *)
Lemma find_columns_Ok header s s' :
  find_columns header s = (Ok tt, s') ->
  exists hs, Csv.first_row header = Ok hs /\
    s' = set_name (name s')
           (set_timestamp (find_col_timestamp hs) (set_headers (Some hs) s)).
Proof.
  rewrite find_columns_unfold. destruct (Csv.first_row header) as [hs|e].
  - intros H. exists hs. split; [reflexivity|].
    pose proof (keeps_classify hs
      (set_timestamp (find_col_timestamp hs) (set_headers (Some hs) s))) as K.
    rewrite H in K. exact K.
  - discriminate.
Qed.

Lemma find_columns_Ok_timestamp header s s' :
  find_columns header s = (Ok tt, s') ->
  timestamp s' = line_timestamp header.
Proof.
  intros H. apply find_columns_Ok in H as (hs & E & ->).
  unfold line_timestamp. rewrite E. reflexivity.
Qed.

(** [find_columns] never touches the file, the title or the serial
    number, whether it raises or not. *)
Lemma find_columns_frame header s :
  let s' := (find_columns header s).2 in
  f s' = f s /\ title s' = title s /\ sn s' = sn s.
Proof.
  rewrite find_columns_unfold. destruct (Csv.first_row header) as [hs|e].
  - cbn zeta.
    pose proof (keeps_classify hs
      (set_timestamp (find_col_timestamp hs) (set_headers (Some hs) s))) as K.
    red in K. rewrite K. cbn. auto.
  - cbn. auto.
Qed.

(** ** The header scan *)

Lemma scan_line_unfold header self :
  scan_line header self = find_columns header (scanned header self).
Proof.
  unfold scan_line, scanned, bind, get, when, modify, ret.
  destruct self as [? [t|] [n|] ? ? ?]; reflexivity.
Qed.

Lemma scanned_frame header self :
  f (scanned header self) = f self /\
  timestamp (scanned header self) = timestamp self.
Proof. unfold scanned. destruct self as [? [t|] [n|] ? ? ?]; cbn; auto. Qed.

Lemma find_headers_loop_step line rest header self :
  timestamp self = None ->
  find_headers_loop (line :: rest) header self =
  match scan_line line (set_f rest self) with
  | (Ok _, s') => find_headers_loop rest (Some line) s'
  | (Err e, s') => (Err e, s')
  end.
Proof.
  intros H. cbn [find_headers_loop]. rewrite H.
  unfold bind, modify. reflexivity.
Qed.

Lemma find_headers_loop_stop file h self :
  timestamp self <> None ->
  find_headers_loop file (Some h) self = (Ok h, self).
Proof. destruct file; cbn; destruct (timestamp self); congruence. Qed.

Lemma scan_line_f line self : f (scan_line line self).2 = f self.
Proof.
  rewrite scan_line_unfold.
  destruct (find_columns_frame line (scanned line self)) as (-> & _).
  apply scanned_frame.
Qed.

Lemma scan_line_Ok_timestamp line self s' :
  scan_line line self = (Ok tt, s') -> timestamp s' = line_timestamp line.
Proof. rewrite scan_line_unfold. apply find_columns_Ok_timestamp. Qed.

Lemma scan_line_columns_ok line self :
  columns_ok line = true -> (scan_line line self).1 = Ok tt.
Proof. rewrite scan_line_unfold. apply columns_ok_spec. Qed.

(** Without a timestamp line the loop never returns a header. *)
Lemma find_headers_loop_no_timestamp file header self :
  timestamp self = None ->
  (forall l, In l file -> line_timestamp l = None) ->
  exists e s', find_headers_loop file header self = (Err e, s').
Proof.
  revert header self. induction file as [|line rest IH]; intros header self Ht Hl.
  - cbn. rewrite Ht. eauto.
  - rewrite find_headers_loop_step by assumption.
    destruct (scan_line line (set_f rest self)) as [[[]|e] s'] eqn:E; [|eauto].
    apply IH.
    + apply scan_line_Ok_timestamp in E. rewrite E. apply Hl. now left.
    + intros l Hin. apply Hl. now right.
Qed.

(** When moreover no line makes column detection raise, the loop ends
    in [next] on the exhausted file. *)
Lemma find_headers_loop_exhausts file header self :
  timestamp self = None ->
  (forall l, In l file -> line_timestamp l = None) ->
  (forall l, In l file -> columns_ok l = true) ->
  exists s', find_headers_loop file header self = (Err StopIteration, s') /\
    f s' = (if file is [] then f self else []) /\ timestamp s' = None.
Proof.
  revert header self. induction file as [|line rest IH]; intros header self Ht Hl Hc.
  - cbn. rewrite Ht. eauto.
  - rewrite find_headers_loop_step by assumption.
    pose proof (scan_line_columns_ok line (set_f rest self) (Hc line (or_introl eq_refl))) as Hok.
    pose proof (scan_line_f line (set_f rest self)) as Hf.
    destruct (scan_line line (set_f rest self)) as [[[]|e] s1] eqn:E; [|discriminate].
    cbn in Hf.
    destruct (IH (Some line) s1) as (s' & -> & Hf' & Ht').
    + apply scan_line_Ok_timestamp in E. rewrite E. apply Hl. now left.
    + intros l Hin. apply Hl. now right.
    + intros l Hin. apply Hc. now right.
    + exists s'. repeat split; [|assumption].
      destruct rest; [congruence|assumption].
Qed.

(** C1, as amended: when the file is exhausted before any line yields a
    timestamp column, [find_headers] never returns; unless column
    detection raises on some line first, it raises [StopIteration] (the
    exception of [next] on the exhausted file) with the whole file
    consumed, and scanning again raises [StopIteration] again. *)
Theorem find_headers_without_timestamp self :
  timestamp self = None ->
  (forall l, In l (f self) -> line_timestamp l = None) ->
  (exists e s', find_headers self = (Err e, s')) /\
  ((forall l, In l (f self) -> columns_ok l = true) ->
   exists s', find_headers self = (Err StopIteration, s') /\
     f s' = [] /\ find_headers s' = (Err StopIteration, s')).
Proof.
  intros Ht Hl. split.
  - now apply find_headers_loop_no_timestamp.
  - intros Hc. unfold find_headers at 1.
    destruct (find_headers_loop_exhausts (f self) None self Ht Hl Hc)
      as (s' & E & Hf & Ht').
    assert (Hnil : f s' = []) by (destruct (f self); assumption).
    exists s'. repeat split; [assumption..|].
    unfold find_headers. rewrite Hnil. cbn. now rewrite Ht'.
Qed.

Lemma find_headers_without_timestamp_witness :
  let self := set_f [row [q "Plot Title: none"]; row [str "no columns here"]]
                new_Hobo in
  (exists e s', find_headers self = (Err e, s')) /\
  (exists s', find_headers self = (Err StopIteration, s') /\
     f s' = [] /\ find_headers s' = (Err StopIteration, s')).
Proof.
  intros self.
  destruct (find_headers_without_timestamp self) as [H1 H2];
    [reflexivity|each_line|].
  split; [exact H1|]. apply H2. each_line.
Defined.

(** C1 as stated fails: what the exhausted file raises is not a
    [HeaderNotFoundError]. *)
Lemma find_headers_not_HeaderNotFoundError :
  let self := set_f [row [q "Plot Title: none"]] new_Hobo in
  (forall l, In l (f self) -> line_timestamp l = None) /\
  ~ exists e s', find_headers self = (Err e, s') /\
      exn_name e = "HeaderNotFoundError"%string.
Proof.
  intros self. split; [each_line|].
  intros (e & s' & H & Hn). vm_compute in H.
  injection H as <- _. discriminate Hn.
Qed.






(** ** Title and serial number through the scan *)

Lemma scan_line_title line self :
  title (scan_line line self).2 =
  Some (if title self is Some t then t else split colon None (strip line)).
Proof.
  rewrite scan_line_unfold.
  destruct (find_columns_frame line (scanned line self)) as (_ & -> & _).
  unfold scanned. destruct self as [? [t|] [n|] ? ? ?]; reflexivity.
Qed.

Lemma scan_line_sn line self :
  sn (scan_line line self).2 =
  if sn self is Some n then Some n else Re.SN_REGEX_search line.
Proof.
  rewrite scan_line_unfold.
  destruct (find_columns_frame line (scanned line self)) as (_ & _ & ->).
  unfold scanned. destruct self as [? [t|] [n|] ? ? ?]; reflexivity.
Qed.

(** Once set, the title is never written again. *)
Lemma find_headers_loop_title file header self t :
  title self = Some t ->
  title (find_headers_loop file header self).2 = Some t.
Proof.
  revert header self. induction file as [|line rest IH]; intros header self Ht.
  - cbn. now destruct (timestamp self), header.
  - destruct (timestamp self) eqn:E.
    + cbn. rewrite E. now destruct header.
    + rewrite find_headers_loop_step by assumption.
      pose proof (scan_line_title line (set_f rest self)) as Hs.
      destruct (scan_line line (set_f rest self)) as [[[]|e] s'];
        cbn in Hs; rewrite Ht in Hs; [now apply IH|assumption].
Qed.

(** The title is the split of the first line read. *)
Lemma find_headers_first_title line rest self :
  title self = None -> timestamp self = None -> f self = line :: rest ->
  title (find_headers self).2 = Some (split colon None (strip line)).
Proof.
  intros Ht Hts Hf. unfold find_headers. rewrite Hf.
  rewrite find_headers_loop_step by assumption.
  pose proof (scan_line_title line (set_f rest self)) as Hs.
  destruct (scan_line line (set_f rest self)) as [[[]|e] s'];
    cbn in Hs; rewrite Ht in Hs; [now apply find_headers_loop_title|assumption].
Qed.

(** Without a match on any line the serial number stays [None]. *)
Lemma find_headers_loop_sn_None file header self :
  sn self = None ->
  (forall l, In l file -> Re.SN_REGEX_search l = None) ->
  sn (find_headers_loop file header self).2 = None.
Proof.
  revert header self. induction file as [|line rest IH]; intros header self Hn Hl.
  - cbn. now destruct (timestamp self), header.
  - destruct (timestamp self) eqn:E.
    + cbn. rewrite E. now destruct header.
    + rewrite find_headers_loop_step by assumption.
      pose proof (scan_line_sn line (set_f rest self)) as Hs.
      destruct (scan_line line (set_f rest self)) as [[[]|e] s'];
        cbn in Hs; rewrite Hn, (Hl line (or_introl eq_refl)) in Hs;
        [|assumption].
      apply IH; [assumption|]. intros l Hin. apply Hl. now right.
Qed.

Section FromCsvStages.

Context (ext : Collaborators).

Lemma from_csv_scan_raises file qc self e s1 :
  find_headers (prepared file self) = (Err e, s1) ->
  from_csv ext file qc self = (Err e, s1).
Proof.
  intros H. unfold from_csv, bind, modify. cbn beta iota.
  change (set_name _ _) with (prepared file self). now rewrite H.
Qed.

Lemma from_csv_metadata_raises file qc self h s1 e :
  find_headers (prepared file self) = (Ok h, s1) ->
  build_metadata s1 = Err e ->
  from_csv ext file qc self = (Err e, s1).
Proof.
  intros H Hm. unfold from_csv, bind, modify, get, lift. cbn beta iota.
  change (set_name _ _) with (prepared file self). now rewrite H, Hm.
Qed.

End FromCsvStages.

(** C10: when the first line of the file holds no colon, [from_csv]
    raises; and when the header scan itself went through, what raises is
    the construction of the metadata, with the [IndexError] of the
    second element of a one-element title. *)
Theorem from_csv_first_line_without_colon ext first rest qc self :
  ~ In colon first ->
  (exists e s', from_csv ext (first :: rest) qc self = (Err e, s')) /\
  (forall h s1,
     find_headers (prepared (first :: rest) self) = (Ok h, s1) ->
     title s1 = Some [strip first] /\
     build_metadata s1 = Err IndexError /\
     from_csv ext (first :: rest) qc self = (Err IndexError, s1)).
Proof.
  intros Hc.
  assert (Hmd : forall h s1,
    find_headers (prepared (first :: rest) self) = (Ok h, s1) ->
    title s1 = Some [strip first] /\ build_metadata s1 = Err IndexError).
  { intros h s1 H.
    pose proof (find_headers_first_title first rest
                  (prepared (first :: rest) self) eq_refl eq_refl eq_refl) as Ht.
    rewrite H in Ht. cbn in Ht.
    rewrite split_no_sep in Ht by (intros Hin; now apply In_strip in Hin).
    split; [assumption|]. unfold build_metadata, title_item. now rewrite Ht. }
  split.
  - destruct (find_headers (prepared (first :: rest) self)) as [[h|e] s1] eqn:E.
    + destruct (Hmd h s1 eq_refl) as [_ Hm].
      exists IndexError, s1. now apply from_csv_metadata_raises with (h := h).
    + exists e, s1. now apply from_csv_scan_raises.
  - intros h s1 H. destruct (Hmd h s1 H) as [Ht Hm].
    repeat split; try assumption. now apply from_csv_metadata_raises with (h := h).
Qed.

Lemma from_csv_first_line_without_colon_witness :
  ~ In colon (row [q "no title here"]) /\
  (exists e s', from_csv Plain.collaborators
                  (row [q "no title here"] :: untitled_file) false new_Hobo
                = (Err e, s')) /\
  (exists s1,
     title s1 = Some [strip (row [q "no title here"])] /\
     build_metadata s1 = Err IndexError /\
     from_csv Plain.collaborators
       (row [q "no title here"] :: untitled_file) false new_Hobo
     = (Err IndexError, s1)).
Proof.
  assert (Hc : ~ In colon (row [q "no title here"])).
  { intros H. vm_compute in H. intuition discriminate. }
  destruct (from_csv_first_line_without_colon Plain.collaborators
              (row [q "no title here"]) untitled_file false new_Hobo Hc)
    as [H1 H2].
  split; [exact Hc|]. split; [exact H1|].
  eexists. eapply H2. vm_compute. reflexivity.
Defined.

(** C10 as stated fails: on a file whose first line has no colon and
    that holds no column-definition line, the header scan raises
    [StopIteration] before the metadata is looked at, and no
    [IndexError] is raised. *)
Lemma from_csv_without_colon_StopIteration :
  let file := [str "no title here"] in
  ~ In colon (nth 0 file []) /\
  (from_csv Plain.collaborators file false new_Hobo).1 = Err StopIteration /\
  (from_csv Plain.collaborators file false new_Hobo).1 <> Err IndexError.
Proof.
  intros file. split; [|split].
  - intros H. vm_compute in H. intuition discriminate.
  - vm_compute. reflexivity.
  - vm_compute. discriminate.
Qed.

(** C2, read against the code: a file in which no line matches
    [SN_REGEX] never makes [from_csv] return; when the header scan
    succeeds and the title has its two parts, the serial number is still
    [None] and [self.sn.strip()] raises [AttributeError]. *)
Theorem from_csv_without_serial_number_raises ext file qc self :
  (forall l, In l file -> Re.SN_REGEX_search l = None) ->
  (exists e s', from_csv ext file qc self = (Err e, s')) /\
  (forall h s1 ti,
     find_headers (prepared file self) = (Ok h, s1) ->
     title_item s1 = Ok ti ->
     sn s1 = None /\
     from_csv ext file qc self = (Err AttributeError, s1)).
Proof.
  intros Hl.
  assert (Hsn : forall h s1,
    find_headers (prepared file self) = (Ok h, s1) -> sn s1 = None).
  { intros h s1 E.
    pose proof (find_headers_loop_sn_None file None (prepared file self)
                  eq_refl Hl) as Hn.
    unfold find_headers in E.
    cbn [prepared f set_name set_timestamp set_sn set_title set_f] in E.
    now rewrite E in Hn. }
  split.
  - destruct (find_headers (prepared file self)) as [[h|e] s1] eqn:E.
    + assert (Hm : exists e, build_metadata s1 = Err e).
      { unfold build_metadata, serial_item. rewrite (Hsn h s1 eq_refl).
        destruct (title_item s1); cbn; eauto. }
      destruct Hm as [e Hm]. exists e, s1.
      now apply from_csv_metadata_raises with (h := h).
    + exists e, s1. now apply from_csv_scan_raises.
  - intros h s1 ti E Hti. split; [now apply (Hsn h)|].
    apply from_csv_metadata_raises with (h := h); [assumption|].
    unfold build_metadata, serial_item. now rewrite Hti, (Hsn h s1 E).
Qed.

Lemma from_csv_without_serial_number_raises_witness :
  (forall l, In l file_without_serial -> Re.SN_REGEX_search l = None) /\
  (exists e s',
     from_csv Plain.collaborators file_without_serial false new_Hobo
     = (Err e, s')) /\
  (exists s1,
     title_item s1 = Ok (dquote :: str "Plot Title", str "pond" ++ [dquote]) /\
     sn s1 = None /\
     from_csv Plain.collaborators file_without_serial false new_Hobo
     = (Err AttributeError, s1)).
Proof.
  assert (Hl : forall l, In l file_without_serial -> Re.SN_REGEX_search l = None)
    by each_line.
  destruct (from_csv_without_serial_number_raises Plain.collaborators
              file_without_serial false new_Hobo Hl) as [H1 H2].
  split; [exact Hl|]. split; [exact H1|].
  exists (find_headers (prepared file_without_serial new_Hobo)).2.
  split; [vm_compute; reflexivity|].
  apply (H2 (nth 1 file_without_serial [])
            (find_headers (prepared file_without_serial new_Hobo)).2
            (dquote :: str "Plot Title", str "pond" ++ [dquote]));
    vm_compute; reflexivity.
Defined.

(** On that file the header scan succeeds, the title is stored, and the
    exception is the [AttributeError] of [None.strip()]. *)
Example from_csv_without_serial_number_AttributeError :
  (from_csv Plain.collaborators file_without_serial false new_Hobo).1
  = Err AttributeError.
Proof. vm_compute. reflexivity. Qed.

(** C5, as amended: the title of the first line read is cut at every
    colon; the key is the text before the first colon and the value the
    trimmed text between the first colon and the second one (or the end
    of the line when there is no second colon). *)
Theorem title_item_of_first_line line rest k v w self :
  strip line = k ++ colon :: v ++ w ->
  ~ In colon k -> ~ In colon v ->
  w = [] \/ (exists w', w = colon :: w') ->
  title_item (find_headers (prepared (line :: rest) self)).2 = Ok (k, strip v).
Proof.
  intros E Hk Hv Hw.
  pose proof (find_headers_first_title line rest
                (prepared (line :: rest) self) eq_refl eq_refl eq_refl) as Ht.
  unfold title_item. rewrite Ht, E.
  rewrite split_at_sep by (trivial || discriminate).
  destruct Hw as [->|[w' ->]].
  - rewrite app_nil_r, split_no_sep by assumption. reflexivity.
  - rewrite split_at_sep by (trivial || discriminate). reflexivity.
Qed.

Lemma title_item_of_first_line_witness :
  let line := row [str "Plot Title: site A: logger 2"] in
  strip line = str "Plot Title" ++ colon :: str " site A" ++ str ": logger 2" /\
  title_item (find_headers (prepared [line] new_Hobo)).2
  = Ok (str "Plot Title", str "site A").
Proof.
  intros line. split; [vm_compute; reflexivity|].
  apply (title_item_of_first_line line [] (str "Plot Title") (str " site A")
           (str ": logger 2") new_Hobo).
  - vm_compute. reflexivity.
  - intros H. vm_compute in H. intuition discriminate.
  - intros H. vm_compute in H. intuition discriminate.
  - right. exists (str " logger 2"). vm_compute. reflexivity.
Defined.

(** C5 as stated fails: with two colons in the first line, the title
    value is not the whole text after the first colon. *)
Lemma title_value_drops_text_after_second_colon :
  let line := row [str "Plot Title: site A: logger 2"] in
  let s1 := (find_headers (prepared [line] new_Hobo)).2 in
  strip line = str "Plot Title" ++ colon :: str " site A: logger 2" /\
  ~ In colon (str "Plot Title") /\
  title_item s1 = Ok (str "Plot Title", str "site A") /\
  title_item s1 <> Ok (str "Plot Title", strip (str " site A: logger 2")).
Proof.
  intros line s1. split; [vm_compute; reflexivity|]. split.
  - intros H. vm_compute in H. intuition discriminate.
  - split; [vm_compute; reflexivity|]. vm_compute. discriminate.
Qed.

(** ** The serial number pattern *)

Module ReFacts.

Import Re.

Lemma SN_REGEX_search_unfold s :
  SN_REGEX_search s =
  match SN_REGEX_match s with
  | Some ds => Some ds
  | None => match s with [] => None | _ :: s' => SN_REGEX_search s' end
  end.
Proof. destruct s; reflexivity. Qed.













End ReFacts.




(** ** The two passes of [find_col_temperature] *)

Lemma same_but_temp_put e s0 s : same_but_temp s0 s -> same_but_temp (put_temp e s0) s.
Proof. intros H e'. rewrite <- (H e'). reflexivity. Qed.

Lemma assign_name_Ok set_key header e self :
  entry_of header = Ok e ->
  assign_name set_key header self
  = (Ok tt, set_name (set_key e (name self)) self).
Proof. intros E. unfold assign_name, bind, lift, modify. now rewrite E. Qed.

Lemma for_each_app {A} (l1 l2 : list A) body self :
  for_each (l1 ++ l2) body self
  = (for_each l1 body ;;; for_each l2 body) self.
Proof.
  revert self. induction l1 as [|x l1 IH]; intros self; cbn [app for_each].
  - reflexivity.
  - unfold bind. destruct (body x self) as [[[]|e] s']; [|reflexivity].
    rewrite IH. reflexivity.
Qed.

(** A pass that writes the slot for the fields selected by [p] runs
    through when those fields decode, and touches nothing else. *)
Lemma mark_temp_runs (p : pystr -> bool) l self :
  (forall x, In x l -> p x = true -> exists e, entry_of x = Ok e) ->
  exists s0,
    for_each l (fun h => when (p h) (assign_name set_temp h)) self = (Ok tt, s0) /\
    same_but_temp s0 self.
Proof.
  revert self. induction l as [|x l IH]; intros self Hd.
  - exists self. split; [reflexivity|]. now intros e.
  - assert (Hl : forall y, In y l -> p y = true -> exists e, entry_of y = Ok e)
      by (intros y Hy; apply Hd; now right).
    cbn [for_each]. unfold bind. destruct (p x) eqn:Ep; cbn [when ret].
    + destruct (Hd x (or_introl eq_refl) Ep) as [e He].
      rewrite (assign_name_Ok set_temp x e self He).
      change (set_name (set_temp e (name self)) self) with (put_temp e self).
      destruct (IH (put_temp e self) Hl) as (s0 & -> & Hs).
      exists s0. split; [reflexivity|].
      intros e'. rewrite (Hs e'). reflexivity.
    + destruct (IH self Hl) as (s0 & -> & Hs). now exists s0.
Qed.

Lemma try_markers_fallback header e self :
  entry_of header = Ok e -> is_fallback header = true ->
  try_markers header self = (Ok tt, put_temp e self).
Proof.
  intros He. unfold is_fallback, try_markers, temp_markers.
  cbn [existsb for_each]. unfold bind.
  destruct (contains (str "Temp,") header), (contains (str "Temp.") header),
    (contains (str "Temperature") header); cbn [when orb ret];
    rewrite ?(assign_name_Ok set_temp header e _ He); cbn [ret];
    rewrite ?(assign_name_Ok set_temp header e _ He); cbn [ret];
    rewrite ?(assign_name_Ok set_temp header e _ He);
    (reflexivity || discriminate).
Qed.

Lemma try_markers_no_fallback header self :
  is_fallback header = false -> try_markers header self = (Ok tt, self).
Proof.
  unfold is_fallback, try_markers, temp_markers. cbn [existsb for_each].
  unfold bind.
  destruct (contains (str "Temp,") header), (contains (str "Temp.") header),
    (contains (str "Temperature") header); cbn; (reflexivity || discriminate).
Qed.

Lemma fallback_pass_runs l self :
  (forall x, In x l -> is_fallback x = true -> exists e, entry_of x = Ok e) ->
  exists s0, for_each l try_markers self = (Ok tt, s0) /\ same_but_temp s0 self.
Proof.
  revert self. induction l as [|x l IH]; intros self Hd.
  - exists self. split; [reflexivity|]. now intros e.
  - assert (Hl : forall y, In y l -> is_fallback y = true ->
                           exists e, entry_of y = Ok e)
      by (intros y Hy; apply Hd; now right).
    cbn [for_each]. unfold bind. destruct (is_fallback x) eqn:Ep.
    + destruct (Hd x (or_introl eq_refl) Ep) as [e He].
      rewrite (try_markers_fallback x e self He Ep).
      destruct (IH (put_temp e self) Hl) as (s0 & -> & Hs).
      exists s0. split; [reflexivity|].
      intros e'. rewrite (Hs e'). reflexivity.
    + rewrite (try_markers_no_fallback x self Ep).
      destruct (IH self Hl) as (s0 & -> & Hs). now exists s0.
Qed.

Lemma fallback_pass_idle l self :
  (forall x, In x l -> is_fallback x = false) ->
  for_each l try_markers self = (Ok tt, self).
Proof.
  revert self. induction l as [|x l IH]; intros self Hn; [reflexivity|].
  cbn [for_each]. unfold bind.
  rewrite (try_markers_no_fallback x self) by (apply Hn; now left).
  apply IH. intros y Hy. apply Hn. now right.
Qed.

(** The last element of a list that satisfies [p]. *)
Lemma last_match {A} (p : A -> bool) l x :
  In x l -> p x = true ->
  exists before h after,
    l = before ++ h :: after /\ p h = true /\
    (forall y, In y after -> p y = false).
Proof.
  revert x. induction l as [|a l IH]; intros x Hin Hp; [destruct Hin|].
  destruct (existsb p l) eqn:E.
  - apply existsb_exists in E as (y & Hy & Hpy).
    destruct (IH y Hy Hpy) as (bf & h & af & -> & Hh & Haf).
    exists (a :: bf), h, af. auto.
  - assert (Hl : forall z, In z l -> p z = false).
    { intros z Hz. destruct (p z) eqn:Ez; [|reflexivity].
      assert (existsb p l = true) by (apply existsb_exists; eauto).
      congruence. }
    exists [], a, l. repeat split; [|assumption].
    destruct Hin as [->|Hin]; [assumption|].
    rewrite (Hl x Hin) in Hp. discriminate.
Qed.

Lemma find_col_temperature_unfold headers self :
  find_col_temperature headers self =
  (for_each headers (fun h => when (is_high_res h) (assign_name set_temp h)) ;;;
   for_each headers try_markers) self.
Proof. reflexivity. Qed.

(** C6, as amended: in a header record with a primary temperature field
    and a distinct fallback temperature field, all of whose temperature
    fields decode, the TEMPERATURE slot ends as the descriptor of the
    last field that matches the fallback pass. *)
Theorem find_col_temperature_last_fallback headers p fb self :
  In p headers -> is_high_res p = true ->
  In fb headers -> is_fallback fb = true -> p <> fb ->
  (forall x, In x headers -> is_high_res x || is_fallback x = true ->
             exists e, entry_of x = Ok e) ->
  exists before h after e,
    headers = before ++ h :: after /\
    is_fallback h = true /\
    (forall y, In y after -> is_fallback y = false) /\
    entry_of h = Ok e /\
    find_col_temperature headers self = (Ok tt, put_temp e self) /\
    temp (name (find_col_temperature headers self).2) = e.
Proof.
  intros _ _ Hfb Hf _ Hd.
  destruct (last_match is_fallback headers fb Hfb Hf)
    as (bf & h & af & E & Hh & Haf).
  assert (Hin : In h headers) by (rewrite E; apply in_elt).
  destruct (Hd h Hin) as [e He]; [rewrite Hh; apply orb_true_r|].
  assert (Hrun : find_col_temperature headers self = (Ok tt, put_temp e self)).
  { rewrite find_col_temperature_unfold. unfold bind.
    destruct (mark_temp_runs is_high_res headers self) as (s0 & -> & Hs0).
    { intros x Hx Hp. apply Hd; [assumption|]. now rewrite Hp. }
    rewrite E, for_each_app. unfold bind.
    destruct (fallback_pass_runs bf s0) as (s1 & -> & Hs1).
    { intros x Hx Hp. apply Hd; [rewrite E; apply in_or_app; now left|].
      rewrite Hp. apply orb_true_r. }
    cbn [for_each]. unfold bind.
    rewrite (try_markers_fallback h e s1 He Hh), (fallback_pass_idle af _ Haf).
    now rewrite (Hs1 e), (Hs0 e). }
  exists bf, h, af, e. rewrite Hrun. repeat split; assumption || reflexivity.
Qed.

Lemma find_col_temperature_last_fallback_witness :
  let headers := [str "Date Time, GMT";
                  str "High Res. Temp., °C (LGR S/N: 1, LBL: fine)";
                  str "Temperature, °C (LGR S/N: 1, LBL: coarse)";
                  str "Batt, V"] in
  exists before h after e,
    headers = before ++ h :: after /\
    is_fallback h = true /\
    (forall y, In y after -> is_fallback y = false) /\
    entry_of h = Ok e /\
    find_col_temperature headers new_Hobo = (Ok tt, put_temp e new_Hobo) /\
    temp (name (find_col_temperature headers new_Hobo).2) = e.
Proof.
  intros headers.
  apply (find_col_temperature_last_fallback headers
           (str "High Res. Temp., °C (LGR S/N: 1, LBL: fine)")
           (str "Temperature, °C (LGR S/N: 1, LBL: coarse)") new_Hobo).
  - right. left. reflexivity.
  - vm_compute. reflexivity.
  - right. right. left. reflexivity.
  - vm_compute. reflexivity.
  - intros H. vm_compute in H. discriminate H.
  - intros x Hx Hm. cbn [In headers] in Hx.
    destruct Hx as [<-|[<-|[<-|[<-|[]]]]];
      (vm_compute in Hm; discriminate Hm) || (eexists; vm_compute; reflexivity).
Defined.

(** C6 as stated fails: a primary field without a comma makes the first
    pass raise, and the slot never receives the descriptor of the
    fallback field. *)
Lemma find_col_temperature_raises_before_fallback :
  let headers := [str "High-Res Temp"; str "Temperature, °C"] in
  let fallback := mkEntry (Some (str "Temperature")) (Some (str "Temperature"))
                    (Some (str "°C")) in
  is_high_res (str "High-Res Temp") = true /\
  is_fallback (str "Temperature, °C") = true /\
  entry_of (str "Temperature, °C") = Ok fallback /\
  find_col_temperature headers new_Hobo = (Err IndexError, new_Hobo) /\
  temp (name (find_col_temperature headers new_Hobo).2) <> fallback.
Proof.
  repeat split; try (vm_compute; reflexivity). vm_compute. discriminate.
Qed.

(** ** Table assembly *)

Section Frames_facts.

Implicit Types (a b k : label) (l : list label) (df : DataFrame.t).

Lemma eqb_eq (x y : pystr) : eqb x y = true <-> x = y.
Proof.
  revert y. induction x as [|c x IH]; intros [|d y]; cbn; try easy.
  rewrite andb_true_iff, N.eqb_eq, IH. split; [intros [-> ->]|intros [= -> ->]]; auto.
Qed.

Lemma label_eqb_eq a b : label_eqb a b = true <-> a = b.
Proof.
  destruct a as [x|], b as [y|]; cbn; try easy.
  rewrite eqb_eq. split; congruence.
Qed.

Lemma existsb_label k l : existsb (label_eqb k) l = true <-> In k l.
Proof.
  rewrite existsb_exists. split.
  - intros (x & Hx & E). apply label_eqb_eq in E. now subst.
  - intros H. exists k. split; [assumption|]. now apply label_eqb_eq.
Qed.

Lemma existsb_label_false k l : ~ In k l -> existsb (label_eqb k) l = false.
Proof.
  intros H. destruct (existsb (label_eqb k) l) eqn:E; [|reflexivity].
  now apply existsb_label in E.
Qed.

Lemma labels_eqb_eq l1 l2 : labels_eqb l1 l2 = true -> l1 = l2.
Proof.
  revert l2. induction l1 as [|a l1 IH]; intros [|b l2]; cbn; try easy.
  rewrite andb_true_iff. intros [E1 E2].
  apply label_eqb_eq in E1. apply IH in E2. congruence.
Qed.

(** The QC loop on the keys [ks] appends one column of zeros per key
    when none of the QC labels is taken. *)
Lemma add_QC_fold ks df :
  (forall k, In k ks -> ~ In (QC_label k) (keys df)) ->
  NoDup (List.map QC_label ks) ->
  let final := fold_left (fun d key => setitem (QC_label key) 0 d) ks df in
  index final = index df /\
  columns final = columns df ++ List.map (fun k => (QC_label k, zeros df)) ks.
Proof.
  revert df. induction ks as [|k ks IH]; intros df Hfree Hnd; cbn zeta.
  - cbn. now rewrite app_nil_r.
  - cbn [fold_left List.map]. inversion Hnd as [|? ? Hk Hnd']; subst.
    assert (Hstep : setitem (QC_label k) 0 df
                    = mk (index df) (columns df ++ [(QC_label k, zeros df)])).
    { unfold setitem. rewrite existsb_label_false; [reflexivity|].
      apply Hfree. now left. }
    rewrite Hstep.
    destruct (IH (mk (index df) (columns df ++ [(QC_label k, zeros df)])))
      as [Hi Hc]; [|assumption|].
    + intros k' Hk'. unfold keys. cbn [columns]. rewrite List.map_app, in_app_iff.
      intros [H|[H|[]]].
      * apply (Hfree k'); [now right|assumption].
      * apply Hk. cbn in H. rewrite H. now apply list_elem_of_In, in_map.
    + cbn zeta in Hi, Hc. rewrite Hi, Hc. cbn [index columns].
      rewrite <- app_assoc. split; reflexivity.
Qed.

Lemma add_QC_keys_columns df :
  NoDup (keys df ++ List.map QC_label (keys df)) ->
  columns (add_QC_keys df)
  = columns df ++ List.map (fun k => (QC_label k, zeros df)) (keys df).
Proof.
  intros Hnd. apply add_QC_fold.
  - intros k Hk Hin. apply NoDup_app in Hnd as (_ & Hdis & _).
    apply (Hdis (QC_label k)); apply list_elem_of_In; [assumption|now apply in_map].
  - now apply NoDup_app in Hnd as (_ & _ & ?).
Qed.

Lemma select_label cols r c : In c (select cols r) -> fst c = r /\ In c cols.
Proof.
  unfold select. destruct (List.find _ cols) as [c'|] eqn:E; [|intros []].
  intros [<-|[]]. apply find_some in E as [Hin E].
  apply label_eqb_eq in E. auto.
Qed.

(** What [filter] keeps carries a label of the frame that is among the
    items. *)
Lemma filter_keys items df retained k :
  DataFrame.filter items df = Ok retained ->
  In k (keys retained) -> In k (keys df) /\ In k items.
Proof.
  unfold DataFrame.filter.
  set (target := List.filter _ items).
  assert (Ht : forall r, In r target -> In r (keys df) /\ In r items).
  { intros r Hr. apply filter_In in Hr as [Hi He].
    apply existsb_label in He. auto. }
  destruct (labels_eqb (keys df) target) eqn:Eq.
  - intros [= <-] Hk. apply labels_eqb_eq in Eq. apply Ht. now rewrite <- Eq.
  - destruct (unique (keys df)).
    + intros [= <-]. unfold keys at 1. cbn [columns].
      rewrite in_map_iff. intros (c & <- & Hc).
      apply in_flat_map in Hc as (r & Hr & Hc).
      apply select_label in Hc as [-> _]. now apply Ht.
    + destruct target; [|discriminate]. intros [= <-] [].
Qed.

End Frames_facts.

Lemma select_present (df : DataFrame.t) (k : label) :
  In k (keys df) ->
  exists vals, select (columns df) k = [(k, vals)] /\ In (k, vals) (columns df).
Proof.
  intros Hk. unfold select.
  destruct (List.find (fun c => label_eqb c.1 k) (columns df)) as [[l v]|] eqn:E.
  - apply find_some in E as [Hin E]. apply label_eqb_eq in E. cbn in E. subst l.
    now exists v.
  - exfalso. apply in_map_iff in Hk as (c & Hc & Hin).
    apply (find_none _ _ E) in Hin. rewrite Hc in Hin.
    assert (label_eqb k k = true) by now apply label_eqb_eq. congruence.
Qed.

Lemma QC_label_fresh (n : pystr) : Some n <> QC_label (Some n).
Proof.
  unfold QC_label, format_QC. intros [= E].
  apply (f_equal (@length N)) in E. rewrite length_app in E.
  change (length (str "_QC")) with 3%nat in E. lia.
Qed.

(** With only the temperature slot filled, [filter] keeps the one
    column that carries the temperature name. *)
Lemma filter_only_temp names (renamed : DataFrame.t) n :
  item0 (temp names) = Some n -> item0 (pres names) = None ->
  item0 (batt names) = None -> item0 (rh names) = None ->
  unique (keys renamed) = true -> ~ In None (keys renamed) ->
  In (Some n) (keys renamed) ->
  exists retained vals,
    DataFrame.filter (filter_items names) renamed = Ok retained /\
    index retained = index renamed /\
    columns retained = [(Some n, vals)] /\
    In (Some n, vals) (columns renamed).
Proof.
  intros Et Ep Eb Er Hu Hnone Hn.
  unfold DataFrame.filter, filter_items. rewrite Et, Ep, Eb, Er.
  assert (Ht : List.filter (fun r => existsb (label_eqb r) (keys renamed))
                 [Some n; None; None; None] = [Some n]).
  { cbn [List.filter].
    rewrite (existsb_label_false None) by assumption.
    now rewrite (proj2 (existsb_label (Some n) (keys renamed)) Hn). }
  rewrite Ht. clear Ht.
  destruct (select_present renamed (Some n) Hn) as (vals & Hsel & Hin).
  destruct (labels_eqb (keys renamed) [Some n]) eqn:Eq.
  - apply labels_eqb_eq in Eq. exists renamed.
    destruct renamed as [idx [|[l v] [|c cols]]]; try discriminate Eq.
    cbn in Eq, Hin, Hsel |- *. injection Eq as ->.
    destruct Hin as [[= <-]|[]]. exists v. auto.
  - rewrite Hu. eexists. exists vals. split; [reflexivity|].
    cbn [index columns flat_map]. rewrite Hsel. auto.
Qed.

(** The renaming loop returns on every frame whose labels are strings,
    and [filter] returns on every frame with distinct labels. *)
Lemma rename_columns_returns names (df : DataFrame.t) :
  ~ In None (keys df) -> exists renamed, rename_columns names df = Ok renamed.
Proof.
  unfold rename_columns. generalize (keys df) as ls. intros ls. revert df.
  induction ls as [|[c|] ls IH]; intros df Hn.
  - now exists df.
  - assert (Hls : ~ In None ls) by (intros H; apply Hn; now right).
    cbn [foldM rename_column].
    destruct (contains (str "Temp") c); [apply IH, Hls|].
    destruct (contains (str "Pres") c); [apply IH, Hls|].
    destruct (contains (str "Batt") c); [apply IH, Hls|].
    destruct (contains (str "RH") c); apply IH, Hls.
  - exfalso. apply Hn. now left.
Qed.

Lemma filter_unique_returns items (df : DataFrame.t) :
  unique (keys df) = true -> exists retained, DataFrame.filter items df = Ok retained.
Proof.
  intros Hu. unfold DataFrame.filter. rewrite Hu.
  destruct (labels_eqb _ _); eauto.
Qed.

(** C9, as amended, in two parts.  When no column has been relabelled
    [None] and neither the retained labels nor their QC labels collide,
    the assembled table is the retained columns, each the display name
    of a populated slot, followed by one column of zeros labelled
    [<display_name>_QC] per retained column, in the same order.  And with
    only the temperature slot populated, its column present and the
    labels distinct, the table has exactly two columns: the temperature
    display name and its [_QC] companion of zeros. *)
Theorem assemble_QC_columns :
  (forall names df renamed retained,
     rename_columns names df = Ok renamed ->
     DataFrame.filter (filter_items names) renamed = Ok retained ->
     ~ In None (keys renamed) ->
     NoDup (keys retained ++ List.map QC_label (keys retained)) ->
     exists final,
       assemble names df = Ok final /\
       columns final
       = columns retained
         ++ List.map (fun k => (QC_label k, zeros retained)) (keys retained) /\
       (forall k, In k (keys retained) -> k <> None /\ In k (filter_items names)))
  /\
  (forall names df renamed n,
     item0 (temp names) = Some n -> item0 (pres names) = None ->
     item0 (batt names) = None -> item0 (rh names) = None ->
     rename_columns names df = Ok renamed ->
     unique (keys renamed) = true -> ~ In None (keys renamed) ->
     In (Some n) (keys renamed) ->
     exists final vals,
       assemble names df = Ok final /\
       In (Some n, vals) (columns renamed) /\
       columns final
       = [(Some n, vals); (Some (n ++ str "_QC"), zeros renamed)]).
Proof.
  split.
  - intros names df renamed retained Hren Hfil Hnone Hnd.
    exists (add_QC_keys retained). unfold assemble. rewrite Hren. cbn [res_bind].
    rewrite Hfil. cbn [res_bind]. split; [reflexivity|]. split.
    + now apply add_QC_keys_columns.
    + intros k Hk. destruct (filter_keys _ _ _ _ Hfil Hk) as [H1 H2].
      split; [|assumption]. intros ->. contradiction.
  - intros names df renamed n Et Ep Eb Er Hren Hu Hnone Hn.
    destruct (filter_only_temp names renamed n Et Ep Eb Er Hu Hnone Hn)
      as (retained & vals & Hfil & Hidx & Hcols & Hin).
    exists (add_QC_keys retained), vals. unfold assemble.
    rewrite Hren. cbn [res_bind]. rewrite Hfil. cbn [res_bind].
    split; [reflexivity|]. split; [assumption|].
    rewrite add_QC_keys_columns.
    + unfold keys, zeros. rewrite Hcols, Hidx. reflexivity.
    + unfold keys. rewrite Hcols. cbn [List.map app fst].
      apply NoDup_cons. split; [|apply NoDup_singleton].
      intros H. apply list_elem_of_singleton in H. now apply QC_label_fresh in H.
Qed.

Lemma assemble_QC_columns_witness :
  (exists final,
     assemble sample_names sample_frame = Ok final /\
     columns final
     = [(Some (str "Temp"), [Cell (str "21.5"); Cell (str "21.6")]);
        (Some (str "Temp_QC"), [Int 0; Int 0])]) /\
  (exists final vals,
     assemble sample_names sample_frame = Ok final /\
     vals = [Cell (str "21.5"); Cell (str "21.6")] /\
     columns final
     = [(Some (str "Temp"), vals); (Some (str "Temp" ++ str "_QC"), [Int 0; Int 0])]).
Proof.
  destruct assemble_QC_columns as [G P]. split.
  - destruct (G sample_names sample_frame
                (DataFrame.mk (index sample_frame)
                   [(Some (str "#"), [Cell (str "1"); Cell (str "2")]);
                    (Some (str "Temp"), [Cell (str "21.5"); Cell (str "21.6")]);
                    (Some (str "Coupler Detached (LGR S/N: 20563204)"),
                     [Cell (str ""); Cell (str "")])])
                (DataFrame.mk (index sample_frame)
                   [(Some (str "Temp"), [Cell (str "21.5"); Cell (str "21.6")])]))
      as (final & Ha & Hc & _).
    + vm_compute. reflexivity.
    + vm_compute. reflexivity.
    + intros H. vm_compute in H. intuition discriminate.
    + apply (bool_decide_unpack _). vm_compute. reflexivity.
    + exists final. split; [exact Ha|]. rewrite Hc. vm_compute. reflexivity.
  - destruct (P sample_names sample_frame
                (DataFrame.mk (index sample_frame)
                   [(Some (str "#"), [Cell (str "1"); Cell (str "2")]);
                    (Some (str "Temp"), [Cell (str "21.5"); Cell (str "21.6")]);
                    (Some (str "Coupler Detached (LGR S/N: 20563204)"),
                     [Cell (str ""); Cell (str "")])])
                (str "Temp"))
      as (final & vals & Ha & Hin & Hc);
      try (vm_compute; reflexivity).
    + intros H. vm_compute in H. intuition discriminate.
    + right. left. reflexivity.
    + exists final, vals. split; [exact Ha|]. split; [|exact Hc].
      vm_compute in Hin.
      destruct Hin as [H|[H|[H|[]]]]; try discriminate H.
      injection H as <-. vm_compute. reflexivity.
Defined.

(** C9 as stated fails: with the display names [A] and [A_QC] retained,
    the QC loop overwrites the pressure column instead of appending a
    column for [A]; one column is appended for two data columns. *)
Lemma QC_column_overwrites_data_column :
  exists renamed retained final,
    rename_columns clashing_names clashing_frame = Ok renamed /\
    DataFrame.filter (filter_items clashing_names) renamed = Ok retained /\
    assemble clashing_names clashing_frame = Ok final /\
    keys retained = [Some (str "A"); Some (str "A_QC")] /\
    keys final = [Some (str "A"); Some (str "A_QC"); Some (str "A_QC_QC")] /\
    In (Some (str "A_QC"), [Cell (str "101.3"); Cell (str "101.2")])
      (columns retained) /\
    In (Some (str "A_QC"), [Int 0; Int 0]) (columns final) /\
    columns final
    <> columns retained
       ++ List.map (fun k => (QC_label k, zeros retained)) (keys retained).
Proof.
  do 3 eexists.
  split; [vm_compute; reflexivity|].
  split; [vm_compute; reflexivity|].
  split; [vm_compute; reflexivity|].
  split; [vm_compute; reflexivity|].
  split; [vm_compute; reflexivity|].
  split; [right; left; vm_compute; reflexivity|].
  split; [right; left; vm_compute; reflexivity|].
  vm_compute. discriminate.
Qed.

(** ** The sample file end to end *)

Example from_csv_sample_file :
  exists wf s,
    from_csv Plain.collaborators sample_file false new_Hobo = (Ok wf, s) /\
    metadata wf !! str "S/N" = Some (str "20563204") /\
    columns (data wf)
    = [(Some (str "Temp"), [Cell (str "21.5"); Cell (str "21.6")]);
       (Some (str "Temp_QC"), [Int 0; Int 0])] /\
    meaning wf !! Some (str "Temp")
    = Some (mkMeaning (Some (str "Temp")) (Some (str "°C"))) /\
    f s = [].
Proof. do 2 eexists. split; [vm_compute; reflexivity|]. repeat split. Qed.

(** * Further properties *)

(** ** The timestamp column *)

Lemma find_col_timestamp_from_spec i hs :
  match find_col_timestamp_from i hs with
  | Some j =>
      exists before h after,
        hs = before ++ h :: after /\ j = (i + length before)%nat /\
        is_timestamp h = true /\
        Forall (fun x => is_timestamp x = false) before
  | None => Forall (fun x => is_timestamp x = false) hs
  end.
Proof.
  revert i. induction hs as [|x hs IH]; intros i; cbn [find_col_timestamp_from].
  - constructor.
  - destruct (is_timestamp x) eqn:E.
    + exists [], x, hs. cbn. repeat split; [lia|assumption|constructor].
    + specialize (IH (S i)). destruct (find_col_timestamp_from (S i) hs) as [j|].
      * destruct IH as (bf & h & af & -> & -> & Hh & Hbf).
        exists (x :: bf), h, af. cbn [app length].
        repeat split; [lia|assumption|now constructor].
      * now constructor.
Qed.

(** X1: [find_col_timestamp] returns the position of the first field
    that holds [Date Time] or [Fecha Tiempo], the test of
    [is_timestamp], and [None] exactly when no field does. *)
Theorem find_col_timestamp_first hs :
  match find_col_timestamp hs with
  | Some i =>
      exists before h after,
        hs = before ++ h :: after /\ length before = i /\
        is_timestamp h = true /\
        Forall (fun x => is_timestamp x = false) before
  | None => Forall (fun x => is_timestamp x = false) hs
  end.
Proof.
  unfold find_col_timestamp.
  pose proof (find_col_timestamp_from_spec 0 hs) as H.
  destruct (find_col_timestamp_from 0 hs) as [j|]; [|assumption].
  destruct H as (bf & h & af & E & -> & Hh & Hbf). exists bf, h, af. auto.
Qed.

(** ** Splitting and trimming *)

Section MoreStrings.

Implicit Types (s t u : pystr) (c sep : N) (m : option nat) (p : N -> bool).

Lemma split_head sep m s :
  m <> Some 0%nat -> exists rest, split sep m s = before_sep sep s :: rest.
Proof.
  intros Hm. induction s as [|c s (rest & IH)]; cbn [split before_sep takewhile].
  - now exists [].
  - destruct (N.eqb c sep); cbn [negb andb].
    + destruct m as [[|n]|]; [congruence|eauto..].
    + rewrite IH. cbn. eauto.
Qed.

Lemma before_sep_no_sep sep s : ~ In sep (before_sep sep s).
Proof.
  induction s as [|c s IH]; cbn; [tauto|].
  destruct (N.eqb_spec c sep); cbn; [tauto|]. intros [E|H]; [congruence|tauto].
Qed.

Lemma before_sep_app sep k r :
  ~ In sep k -> before_sep sep (k ++ sep :: r) = k.
Proof.
  unfold before_sep.
  induction k as [|c k IH]; intros Hk; cbn [app takewhile].
  - now rewrite N.eqb_refl.
  - destruct (N.eqb_spec c sep) as [->|_]; cbn [negb].
    + exfalso. apply Hk. now left.
    + rewrite IH; [reflexivity|]. intros H. apply Hk. now right.
Qed.

Lemma before_sep_all sep s : ~ In sep s -> before_sep sep s = s.
Proof.
  unfold before_sep.
  induction s as [|c s IH]; intros Hs; cbn [takewhile]; [reflexivity|].
  destruct (N.eqb_spec c sep) as [->|_]; cbn [negb].
  - exfalso. apply Hs. now left.
  - rewrite IH; [reflexivity|]. intros H. apply Hs. now right.
Qed.

Lemma split_zero sep s : split sep (Some 0%nat) s = [s].
Proof.
  induction s as [|c s IH]; cbn [split]; [reflexivity|].
  rewrite andb_false_r, IH. reflexivity.
Qed.

Lemma dropwhile_suffix p s : exists w, s = w ++ dropwhile p s.
Proof.
  induction s as [|c s (w & IH)]; cbn; [now exists []|].
  destruct (p c); [|now exists []].
  exists (c :: w). cbn. now f_equal.
Qed.

Lemma dropwhile_head p s :
  dropwhile p s = [] \/ exists c t, dropwhile p s = c :: t /\ p c = false.
Proof.
  induction s as [|c s IH]; cbn; [now left|].
  destruct (p c) eqn:E; [assumption|]. right. eauto.
Qed.

Lemma dropwhile_fixed p c t : p c = false -> dropwhile p (c :: t) = c :: t.
Proof. intros E. cbn. now rewrite E. Qed.

(** What [strip] returns has nothing left to strip at either end. *)
Lemma strip_by_fixed p s :
  let t := rstrip_by p (lstrip_by p s) in
  lstrip_by p t = t /\ rstrip_by p t = t.
Proof.
  unfold rstrip_by, lstrip_by. cbn zeta.
  set (a := dropwhile p s). set (b := dropwhile p (rev a)).
  assert (Hb : dropwhile p b = b).
  { unfold b. destruct (dropwhile_head p (rev a)) as [->|(c & t & -> & E)];
      [reflexivity|now apply dropwhile_fixed]. }
  split.
  - destruct (dropwhile_suffix p (rev a)) as (w & Hw). fold b in Hw.
    assert (Ha : a = rev b ++ rev w).
    { rewrite <- (rev_involutive a), Hw, rev_app_distr. reflexivity. }
    destruct (rev b) as [|c t] eqn:Eb; [reflexivity|].
    destruct (dropwhile_head p s) as [E|(c' & t' & E & Hc)]; fold a in E.
    + rewrite E in Ha. discriminate.
    + rewrite E in Ha. cbn in Ha. injection Ha as -> _.
      now apply dropwhile_fixed.
  - now rewrite rev_involutive, Hb.
Qed.

Lemma strip_idempotent s : strip (strip s) = strip s.
Proof.
  unfold strip at 1. destruct (strip_by_fixed isspace s) as [H1 H2].
  fold (strip s) in H1, H2. now rewrite H1, H2.
Qed.

Lemma In_before_sep sep c s : In c (before_sep sep s) -> In c s.
Proof.
  unfold before_sep. induction s as [|a s IH]; cbn; [tauto|].
  destruct (negb (N.eqb a sep)); cbn; tauto.
Qed.

Lemma strip_chars_subset chars c s : In c (strip_chars chars s) -> In c s.
Proof.
  unfold strip_chars, rstrip_by, lstrip_by. intros H.
  apply in_rev, In_dropwhile, in_rev in H. now apply In_dropwhile in H.
Qed.

End MoreStrings.

(** ** What the three decoders return *)

Lemma getitem_0_before_sep sep m s :
  m <> Some 0%nat -> getitem (split sep m s) 0 = Ok (before_sep sep s).
Proof. intros Hm. destruct (split_head sep m s Hm) as (rest & ->). reflexivity. Qed.

Lemma find_long_name_Ok header :
  find_long_name header = Ok (strip (before_sep comma header)) /\
  ~ In comma (strip (before_sep comma header)).
Proof.
  split.
  - unfold find_long_name. now rewrite getitem_0_before_sep.
  - intros H. apply In_strip in H. now apply before_sep_no_sep in H.
Qed.

(** X2: [find_long_name] never raises: it returns the trimmed text
    before the first comma, the whole trimmed field when there is no
    comma, and the result holds no comma. *)
Theorem find_long_name_returns header :
  find_long_name header = Ok (strip (before_sep comma header)) /\
  ~ In comma (strip (before_sep comma header)) /\
  (~ In comma header -> find_long_name header = Ok (strip header)).
Proof.
  destruct (find_long_name_Ok header) as [E Hno].
  split; [exact E|]. split; [exact Hno|].
  intros H. now rewrite E, before_sep_all.
Qed.

Lemma getitem_1_split_sep sep m s :
  In sep s -> m <> Some 0%nat -> exists x, getitem (split sep m s) 1 = Ok x.
Proof.
  intros Hs Hm. apply in_split_first in Hs as (k & r & -> & Hk).
  rewrite split_at_sep by assumption.
  destruct (getitem_0_split sep (Nat.pred <$> m) r) as (x & Hx).
  exists x. exact Hx.
Qed.

Lemma rsplit_last header :
  In comma header ->
  exists x, rsplit comma (Some 1%nat) header = [x; after_last comma header].
Proof.
  intros H. apply in_rev in H. apply in_split_first in H as (k & r & E & Hk).
  unfold rsplit, after_last. rewrite E, before_sep_app by assumption.
  rewrite split_at_sep by (assumption || discriminate).
  cbn [fmap option_fmap option_map Nat.pred]. rewrite split_zero.
  exists (rev r). reflexivity.
Qed.

(** [find_name] on a field with a comma, in terms of the segment after
    the last comma. *)
Lemma find_name_comma header :
  In comma header ->
  find_name header =
  if eqb (strip (before_sep colon (trailing_segment header))) (str "LBL")
  then lbl <-? getitem (split colon None (trailing_segment header)) 1 ;;
       Ok (strip lbl)
  else Ok (strip (before_sep comma header)).
Proof.
  intros H. unfold find_name. destruct (rsplit_last header H) as (x & ->).
  cbn [getitem nth_error res_bind]. fold (trailing_segment header).
  rewrite !getitem_0_before_sep by discriminate. reflexivity.
Qed.

(** X3: [find_name] raises nothing but [IndexError], and it raises
    exactly on a field without a comma and on a field whose segment
    after the last comma is the bare tag [LBL], with no colon. *)
Theorem find_name_raises_iff header :
  (forall e, find_name header = Err e -> e = IndexError) /\
  (find_name header = Err IndexError <->
   ~ In comma header \/
   (strip (trailing_segment header) = str "LBL" /\
    ~ In colon (trailing_segment header))).
Proof.
  destruct (in_dec N.eq_dec comma header) as [Hc|Hc].
  - rewrite (find_name_comma header Hc).
    set (seg := trailing_segment header).
    destruct (eqb (strip (before_sep colon seg)) (str "LBL")) eqn:Et.
    + apply eqb_eq in Et.
      destruct (in_dec N.eq_dec colon seg) as [Hs|Hs].
      * destruct (getitem_1_split_sep colon None seg Hs) as (x & ->);
          [discriminate|]. cbn [res_bind]. split; [discriminate|].
        split; [discriminate|]. intros [H|[_ H]]; contradiction.
      * rewrite split_no_sep by assumption. cbn. split; [congruence|].
        split; [|reflexivity]. intros _. right.
        now rewrite before_sep_all in Et.
    + split; [discriminate|]. split; [discriminate|].
      intros [H|[H Hs]]; [contradiction|].
      rewrite before_sep_all, H in Et by assumption.
      assert (eqb (str "LBL") (str "LBL") = true) by reflexivity. congruence.
  - assert (E : find_name header = Err IndexError).
    { unfold find_name. now rewrite rsplit_no_sep. }
    rewrite E. split; [congruence|]. split; auto.
Qed.

(** X4: without the tag [LBL] in the segment after the last comma, the
    display name of a field with a comma is its long name. *)
Theorem find_name_defaults_to_long_name header :
  In comma header ->
  strip (before_sep colon (trailing_segment header)) <> str "LBL" ->
  find_name header = find_long_name header /\
  find_name header = Ok (strip (before_sep comma header)).
Proof.
  intros Hc Ht.
  assert (E : find_name header = Ok (strip (before_sep comma header))).
  { rewrite (find_name_comma header Hc).
    destruct (eqb _ (str "LBL")) eqn:Et; [|reflexivity].
    now apply eqb_eq in Et. }
  split; [|exact E]. rewrite E. unfold find_long_name.
  now rewrite getitem_0_before_sep.
Qed.

Lemma find_name_defaults_to_long_name_witness :
  let header := str "Temp, °C (LGR S/N: 20563204, SEN S/N: 20563204)" in
  find_name header = find_long_name header /\
  find_name header = Ok (str "Temp").
Proof.
  intros header.
  assert (Hc : In comma header) by (vm_compute; tauto).
  assert (Ht : strip (before_sep colon (trailing_segment header)) <> str "LBL")
    by (vm_compute; discriminate).
  exact (find_name_defaults_to_long_name header Hc Ht).
Defined.

Lemma find_units_closed k r :
  ~ In comma k ->
  find_units (k ++ comma :: r)
  = Ok (strip (before_sep space (strip (before_sep comma r)))).
Proof.
  intros Hk. unfold find_units. rewrite split_at_sep by (trivial || discriminate).
  change (getitem (k :: split comma (Nat.pred <$> Some 2%nat) r) 1)
    with (getitem (split comma (Some 1%nat) r) 0).
  rewrite getitem_0_before_sep by discriminate. cbn [res_bind].
  rewrite getitem_0_before_sep by discriminate. reflexivity.
Qed.

Lemma find_name_Ok_strip header n :
  find_name header = Ok n -> strip n = n.
Proof.
  unfold find_name.
  destruct (getitem (rsplit comma (Some 1%nat) header) 1) as [part|]; [|discriminate].
  cbn [res_bind].
  destruct (getitem (split colon None _) 0) as [tag|]; [|discriminate].
  cbn [res_bind]. destruct (eqb (strip tag) (str "LBL")).
  - destruct (getitem (split colon None _) 1) as [lbl|]; [|discriminate].
    intros [= <-]. apply strip_idempotent.
  - destruct (getitem (split comma (Some 1%nat) header) 0) as [first|];
      [|discriminate].
    intros [= <-]. apply strip_idempotent.
Qed.

(** X5: every descriptor that [find_columns] stores is made of three
    trimmed strings; the long name holds no comma and the unit neither a
    comma nor a space. *)
Theorem entry_of_trimmed header e :
  entry_of header = Ok e ->
  exists n l u,
    e = mkEntry (Some n) (Some l) (Some u) /\
    strip n = n /\ strip l = l /\ strip u = u /\
    ~ In comma l /\ ~ In comma u /\ ~ In space u.
Proof.
  unfold entry_of.
  destruct (find_name header) as [n|] eqn:En; [|discriminate].
  destruct (find_long_name_Ok header) as (El & Hl).
  rewrite El. cbn [res_bind].
  destruct (find_units header) as [u|] eqn:Eu; [|discriminate].
  intros [= <-]. exists n, (strip (before_sep comma header)), u.
  assert (Hc : In comma header).
  { destruct (in_dec N.eq_dec comma header) as [Hc|Hc]; [assumption|].
    unfold find_units in Eu. rewrite split_no_sep in Eu by assumption.
    discriminate. }
  apply in_split_first in Hc as (k & r & -> & Hk).
  rewrite find_units_closed in Eu by assumption. injection Eu as <-.
  split; [reflexivity|]. split; [now apply find_name_Ok_strip with (1 := En)|].
  split; [apply strip_idempotent|]. split; [apply strip_idempotent|].
  split; [assumption|]. split.
  - intros H. apply In_strip, In_before_sep, In_strip in H.
    now apply before_sep_no_sep in H.
  - intros H. apply In_strip in H. now apply before_sep_no_sep in H.
Qed.

Lemma entry_of_trimmed_witness :
  exists n l u,
    mkEntry (Some (str "WaterTemp")) (Some (str "Temp")) (Some (str "°C"))
    = mkEntry (Some n) (Some l) (Some u) /\
    strip n = n /\ strip l = l /\ strip u = u /\
    ~ In comma l /\ ~ In comma u /\ ~ In space u.
Proof.
  apply (entry_of_trimmed
           (str "Temp, °C (LGR S/N: 1, SEN S/N: 1, LBL: WaterTemp)")).
  vm_compute. reflexivity.
Defined.

(** ** The single passes and the fields no pass selects *)

Lemma put_put set_key e1 e2 s :
  overwrites set_key -> put set_key e2 (put set_key e1 s) = put set_key e2 s.
Proof. intros H. unfold put. cbn. now rewrite H. Qed.

Lemma mark_idle (p : pystr -> bool) set_key l self :
  (forall x, In x l -> p x = false) ->
  for_each l (fun h => when (p h) (assign_name set_key h)) self = (Ok tt, self).
Proof.
  revert self. induction l as [|x l IH]; intros self Hn; [reflexivity|].
  cbn [for_each]. unfold bind. rewrite (Hn x (or_introl eq_refl)). cbn [when ret].
  apply IH. intros y Hy. apply Hn. now right.
Qed.

Lemma mark_runs (p : pystr -> bool) set_key l self :
  overwrites set_key ->
  (forall x, In x l -> p x = true -> exists e, entry_of x = Ok e) ->
  exists s0,
    for_each l (fun h => when (p h) (assign_name set_key h)) self = (Ok tt, s0) /\
    forall e, put set_key e s0 = put set_key e self.
Proof.
  intros Ho. revert self. induction l as [|x l IH]; intros self Hd.
  - exists self. split; reflexivity.
  - assert (Hl : forall y, In y l -> p y = true -> exists e, entry_of y = Ok e)
      by (intros y Hy; apply Hd; now right).
    cbn [for_each]. unfold bind. destruct (p x) eqn:Ep; cbn [when ret].
    + destruct (Hd x (or_introl eq_refl) Ep) as [e He].
      rewrite (assign_name_Ok set_key x e self He).
      change (set_name (set_key e (name self)) self) with (put set_key e self).
      destruct (IH (put set_key e self) Hl) as (s0 & -> & Hs).
      exists s0. split; [reflexivity|].
      intros e'. now rewrite (Hs e'), put_put.
    + destruct (IH self Hl) as (s0 & -> & Hs). now exists s0.
Qed.

Lemma mark_last_match marker set_key before h after e self :
  overwrites set_key ->
  entry_of h = Ok e ->
  contains marker h = true ->
  (forall y, In y after -> contains marker y = false) ->
  (forall x, In x before -> contains marker x = true ->
             exists e', entry_of x = Ok e') ->
  mark marker set_key (before ++ h :: after) self = (Ok tt, put set_key e self).
Proof.
  intros Ho He Hh Haf Hbf. unfold mark. rewrite for_each_app. unfold bind.
  destruct (mark_runs (contains marker) set_key before self Ho Hbf)
    as (s0 & -> & Hs).
  cbn [for_each]. unfold bind. rewrite Hh. cbn [when].
  rewrite (assign_name_Ok set_key h e s0 He).
  rewrite (mark_idle (contains marker) set_key after _ Haf).
  change (set_name (set_key e (name s0)) s0) with (put set_key e s0).
  now rewrite Hs.
Qed.

(** X6: in each of the single passes for pressure, relative humidity
    and battery, the last field that holds the marker gives the slot its
    descriptor, provided the fields before it that hold the marker
    decode. *)
Theorem single_pass_last_match before h after e self :
  entry_of h = Ok e ->
  (contains (str "Pres abs,") h = true ->
   (forall y, In y after -> contains (str "Pres abs,") y = false) ->
   (forall x, In x before -> contains (str "Pres abs,") x = true ->
              exists e', entry_of x = Ok e') ->
   find_col_preassure (before ++ h :: after) self = (Ok tt, put set_pres e self)) /\
  (contains (str "RH,") h = true ->
   (forall y, In y after -> contains (str "RH,") y = false) ->
   (forall x, In x before -> contains (str "RH,") x = true ->
              exists e', entry_of x = Ok e') ->
   find_col_rh (before ++ h :: after) self = (Ok tt, put set_rh e self)) /\
  (contains (str "Batt, V") h = true ->
   (forall y, In y after -> contains (str "Batt, V") y = false) ->
   (forall x, In x before -> contains (str "Batt, V") x = true ->
              exists e', entry_of x = Ok e') ->
   find_col_battery (before ++ h :: after) self = (Ok tt, put set_batt e self)).
Proof.
  intros He. repeat split; intros Hh Haf Hbf.
  - apply (mark_last_match (str "Pres abs,") set_pres); auto. now intros e1 e2 n.
  - apply (mark_last_match (str "RH,") set_rh); auto. now intros e1 e2 n.
  - apply (mark_last_match (str "Batt, V") set_batt); auto. now intros e1 e2 n.
Qed.

Lemma single_pass_last_match_witness :
  let fields := [str "#"; str "Pres abs, kPa (LBL: old)";
                 str "Pres abs, psi (LGR S/N: 1, LBL: new)"; str "Temp, °C"] in
  find_col_preassure fields new_Hobo
  = (Ok tt, put set_pres (mkEntry (Some (str "new")) (Some (str "Pres abs"))
                            (Some (str "psi"))) new_Hobo).
Proof.
  intros fields.
  destruct (single_pass_last_match
              [str "#"; str "Pres abs, kPa (LBL: old)"]
              (str "Pres abs, psi (LGR S/N: 1, LBL: new)") [str "Temp, °C"]
              (mkEntry (Some (str "new")) (Some (str "Pres abs")) (Some (str "psi")))
              new_Hobo) as (H & _ & _).
  - vm_compute. reflexivity.
  - apply H; [vm_compute; reflexivity| |].
    + intros y Hy. cbn [In] in Hy. destruct Hy as [<-|[]]. vm_compute. reflexivity.
    + intros x Hx Hm. cbn [In] in Hx. destruct Hx as [<-|[<-|[]]].
      * vm_compute in Hm. discriminate Hm.
      * eexists. vm_compute. reflexivity.
Defined.

Lemma classify_idle hs self :
  Forall (fun x => unmarked x = true) hs -> classify hs self = (Ok tt, self).
Proof.
  intros H. rewrite List.Forall_forall in H.
  assert (Hu : forall x, In x hs ->
    is_high_res x = false /\ is_fallback x = false /\
    contains (str "Pres abs,") x = false /\ contains (str "RH,") x = false /\
    contains (str "Batt, V") x = false).
  { intros x Hx. specialize (H x Hx). unfold unmarked in H.
    repeat (apply andb_true_iff in H as [H ?]).
    repeat split; now apply negb_true_iff. }
  unfold classify, bind. rewrite find_col_temperature_unfold. unfold bind.
  rewrite (mark_idle is_high_res set_temp hs self) by (intros x Hx; apply Hu, Hx).
  rewrite fallback_pass_idle by (intros x Hx; apply Hu, Hx).
  unfold find_col_preassure, find_col_rh, find_col_battery.
  rewrite !mark_idle; try reflexivity; intros x Hx; apply Hu, Hx.
Qed.

(** X7: a record none of whose fields holds a channel marker never makes
    [find_columns] raise, with or without commas in the fields, and
    leaves every slot of [self.name] as it was; only the headers and the
    timestamp position are stored. *)
Theorem find_columns_without_channels header hs self :
  Csv.first_row header = Ok hs ->
  Forall (fun x => unmarked x = true) hs ->
  find_columns header self
  = (Ok tt, set_timestamp (find_col_timestamp hs) (set_headers (Some hs) self)) /\
  name (find_columns header self).2 = name self.
Proof.
  intros Hrow Hu. rewrite find_columns_unfold, Hrow, classify_idle by assumption.
  split; reflexivity.
Qed.

Lemma find_columns_without_channels_witness :
  let header := row [q "#"; q "Date Time, GMT+00:00"; q "Coupler Detached"] in
  let hs := [str "#"; str "Date Time, GMT+00:00"; str "Coupler Detached"] in
  find_columns header new_Hobo
  = (Ok tt, set_timestamp (Some 1%nat) (set_headers (Some hs) new_Hobo)) /\
  name (find_columns header new_Hobo).2 = initial_names.
Proof.
  intros header hs.
  apply (find_columns_without_channels header hs new_Hobo).
  - vm_compute. reflexivity.
  - repeat constructor.
Defined.

(** ** What the header scan can raise *)

Lemma getitem_Err {A} (l : list A) i e : getitem l i = Err e -> e = IndexError.
Proof. unfold getitem. destruct (nth_error l i); [discriminate|congruence]. Qed.

Lemma entry_of_Err header e : entry_of header = Err e -> e = IndexError.
Proof.
  unfold entry_of, find_name, find_long_name, find_units.
  repeat match goal with
  | |- context [res_bind (getitem ?l ?i) _] =>
      let E := fresh "E" in
      destruct (getitem l i) eqn:E;
      [cbn [res_bind]|intros [= <-]; now apply getitem_Err in E]
  | |- context [if ?b then _ else _] => destruct b
  | |- context [res_bind (Ok _) _] => cbn [res_bind]
  end; discriminate.
Qed.

Module CsvFacts.

Import Csv.

Lemma parse_add_char_Err r c e : parse_add_char r c = Err e -> e = csv_Error.
Proof. unfold parse_add_char. destruct (_ <=? _)%N; congruence. Qed.

Lemma parse_process_char_Err r c e :
  parse_process_char r c = Err e -> e = csv_Error.
Proof.
  unfold parse_process_char, start_field.
  destruct (state r);
    repeat match goal with
    | |- context [if ?b then _ else _] => destruct b
    | |- context [res_bind (parse_add_char ?x ?y) _] =>
        let E := fresh "E" in
        destruct (parse_add_char x y) eqn:E;
        [cbn [res_bind]|intros [= <-]; now apply parse_add_char_Err in E]
    end;
    try discriminate; try congruence; apply parse_add_char_Err.
Qed.

Lemma process_line_Err r line e : process_line r line = Err e -> e = csv_Error.
Proof.
  revert r. induction line as [|c line IH]; intros r; cbn [process_line].
  - discriminate.
  - destruct (c =? NUL)%N; [congruence|].
    destruct (parse_process_char r c) as [r1|e1] eqn:E; cbn [res_bind].
    + apply IH.
    + intros [= <-]. now apply parse_process_char_Err in E.
Qed.

Lemma Reader_iternext_loop_Err input r e :
  Reader_iternext_loop input r = Err e -> e = csv_Error \/ e = StopIteration.
Proof.
  revert r. induction input as [|line rest IH]; intros r; cbn [Reader_iternext_loop].
  - destruct (_ || _); [discriminate|]. intros [= <-]. now right.
  - destruct (process_line r line) as [r1|e1] eqn:E1; cbn [res_bind].
    + destruct (parse_process_char r1 NUL) as [r2|e2] eqn:E2; cbn [res_bind].
      * destruct (at_start_record r2); [discriminate|apply IH].
      * intros [= <-]. left. now apply parse_process_char_Err in E2.
    + intros [= <-]. left. now apply process_line_Err in E1.
Qed.

End CsvFacts.

Section RaisesOnly.

Variable P : exn -> Prop.

Lemma raises_only_lift {A} (r : res A) :
  (forall e, r = Err e -> P e) -> raises_only P (lift r).
Proof. intros H s e s' [= E _]. now apply H. Qed.

Lemma raises_only_modify g : raises_only P (modify g).
Proof. intros s e s' [=]. Qed.

Lemma raises_only_ret {A} (a : A) : raises_only P (ret a).
Proof. intros s e s' [=]. Qed.

Lemma raises_only_bind {A B} (m : M A) (k : A -> M B) :
  raises_only P m -> (forall a, raises_only P (k a)) -> raises_only P (bind m k).
Proof.
  intros Hm Hk s e s'. unfold bind.
  destruct (m s) as [[a|e1] s1] eqn:E.
  - apply Hk.
  - intros [= <- _]. now apply (Hm s e1 s1).
Qed.

Lemma raises_only_when c (m : M unit) : raises_only P m -> raises_only P (when c m).
Proof. destruct c; cbn; [trivial|intros _; apply raises_only_ret]. Qed.

Lemma raises_only_for_each {A} (l : list A) body :
  (forall x, raises_only P (body x)) -> raises_only P (for_each l body).
Proof.
  intros H. induction l as [|x l IH]; cbn [for_each].
  - apply raises_only_ret.
  - apply raises_only_bind; [apply H|intros _; apply IH].
Qed.

End RaisesOnly.

Lemma raises_only_assign_name set_key header :
  raises_only scan_exn (assign_name set_key header).
Proof.
  apply raises_only_bind.
  - apply raises_only_lift. intros e E. apply entry_of_Err in E. red. auto.
  - intros e. apply raises_only_modify.
Qed.

Lemma raises_only_classify hs : raises_only scan_exn (classify hs).
Proof.
  unfold classify, find_col_temperature, find_col_preassure, find_col_rh,
    find_col_battery.
  repeat (apply raises_only_bind; [|intros _]);
    repeat (apply raises_only_for_each; intros ?);
    apply raises_only_when, raises_only_assign_name.
Qed.

Lemma raises_only_find_columns header : raises_only scan_exn (find_columns header).
Proof.
  intros s e s'. rewrite find_columns_unfold.
  destruct (Csv.first_row header) as [hs|e1] eqn:E.
  - apply raises_only_classify.
  - intros [= <- _]. apply CsvFacts.Reader_iternext_loop_Err in E.
    red. tauto.
Qed.

Lemma raises_only_find_headers_loop file header self e s' :
  (header = None -> timestamp self = None) ->
  find_headers_loop file header self = (Err e, s') -> scan_exn e.
Proof.
  revert header self. induction file as [|line rest IH]; intros header self Hh.
  - cbn. destruct (timestamp self) eqn:Et.
    + destruct header; [discriminate|]. specialize (Hh eq_refl). discriminate.
    + intros [= <- _]. red. auto.
  - destruct (timestamp self) eqn:Et.
    + cbn. rewrite Et. destruct header; [discriminate|].
      specialize (Hh eq_refl). discriminate.
    + rewrite find_headers_loop_step by assumption.
      destruct (scan_line line (set_f rest self)) as [[[]|e1] s1] eqn:E.
      * apply IH. discriminate.
      * intros [= <- _]. rewrite scan_line_unfold in E.
        now apply raises_only_find_columns in E.
Qed.

(** A reader that has been given a line never ends in [StopIteration]:
    after the NUL that closes a line, the record is complete or a quoted
    field is open. *)
Lemma after_NUL r r2 :
  Csv.parse_process_char r NUL = Ok r2 ->
  Csv.at_start_record r2 = true \/ Csv.in_quoted_field r2 = true.
Proof. destruct r as [[] fs fd]; cbn; intros [= <-]; auto. Qed.

Lemma Reader_iternext_loop_given_line line rest r :
  Csv.Reader_iternext_loop (line :: rest) r <> Err StopIteration.
Proof.
  revert line r. induction rest as [|l2 rest IH]; intros line r;
    cbn [Csv.Reader_iternext_loop].
  - destruct (Csv.process_line r line) as [r1|e1] eqn:E1; cbn [res_bind].
    + destruct (Csv.parse_process_char r1 NUL) as [r2|e2] eqn:E2; cbn [res_bind].
      * destruct (after_NUL _ _ E2) as [H|H]; rewrite H; [discriminate|].
        destruct (Csv.at_start_record r2); [discriminate|].
        rewrite orb_true_r. discriminate.
      * apply CsvFacts.parse_process_char_Err in E2. congruence.
    + apply CsvFacts.process_line_Err in E1. congruence.
  - destruct (Csv.process_line r line) as [r1|e1] eqn:E1; cbn [res_bind].
    + destruct (Csv.parse_process_char r1 NUL) as [r2|e2] eqn:E2; cbn [res_bind].
      * destruct (Csv.at_start_record r2); [discriminate|apply IH].
      * apply CsvFacts.parse_process_char_Err in E2. congruence.
    + apply CsvFacts.process_line_Err in E1. congruence.
Qed.

Lemma StringIO_lines_nil cur s : Csv.StringIO_lines cur s = [] -> cur = [] /\ s = [].
Proof.
  revert cur. induction s as [|c s IH]; intros cur; cbn [Csv.StringIO_lines].
  - destruct cur; [auto|discriminate].
  - destruct (c =? LF)%N; [discriminate|].
    intros H. apply IH in H as [H _]. now destruct cur.
Qed.

Lemma first_row_StopIteration line :
  Csv.first_row line = Err StopIteration -> line = [].
Proof.
  unfold Csv.first_row. destruct (Csv.StringIO_lines [] line) as [|l rest] eqn:E.
  - intros _. now apply StringIO_lines_nil in E.
  - intros H. now apply Reader_iternext_loop_given_line in H.
Qed.

Lemma classify_raises_IndexError hs :
  raises_only (fun e => e = IndexError) (classify hs).
Proof.
  unfold classify, find_col_temperature, find_col_preassure, find_col_rh,
    find_col_battery.
  repeat (apply raises_only_bind; [|intros _]);
    repeat (apply raises_only_for_each; intros ?);
    apply raises_only_when, raises_only_bind;
    try (apply raises_only_lift; intros e E; now apply entry_of_Err in E);
    intros e; apply raises_only_modify.
Qed.

Lemma scan_line_Err line self e s' :
  line <> [] -> scan_line line self = (Err e, s') ->
  e = IndexError \/ e = csv_Error.
Proof.
  intros Hl. rewrite scan_line_unfold, find_columns_unfold.
  destruct (Csv.first_row line) as [hs|e1] eqn:E.
  - intros H. left. now apply classify_raises_IndexError in H.
  - intros [= <- _].
    destruct (CsvFacts.Reader_iternext_loop_Err _ _ _ E) as [->| ->]; [now right|].
    now apply first_row_StopIteration in E.
Qed.

Lemma find_headers_loop_until_step stop line rest header self :
  timestamp self = None ->
  find_headers_loop_until stop (line :: rest) header self =
  match scan_line line (set_f rest self) with
  | (Ok _, s') => find_headers_loop_until stop rest (Some line) s'
  | (Err e, s') => (Err e, s')
  end.
Proof.
  intros H. cbn [find_headers_loop_until]. rewrite H.
  unfold bind, modify. reflexivity.
Qed.

Lemma find_headers_loop_until_Err stop file header self e s' :
  (header = None -> timestamp self = None) ->
  (forall l, In l file -> l <> []) ->
  find_headers_loop_until stop file header self = (Err e, s') ->
  e = next_raises stop \/ e = IndexError \/ e = csv_Error.
Proof.
  revert header self. induction file as [|line rest IH]; intros header self Hh Hl.
  - cbn. destruct (timestamp self) eqn:Et.
    + destruct header; [discriminate|]. specialize (Hh eq_refl). discriminate.
    + intros [= <- _]. now left.
  - destruct (timestamp self) eqn:Et.
    + cbn. rewrite Et. destruct header; [discriminate|].
      specialize (Hh eq_refl). discriminate.
    + rewrite find_headers_loop_until_step by assumption.
      destruct (scan_line line (set_f rest self)) as [[[]|e1] s1] eqn:E.
      * apply IH; [discriminate|]. intros l Hin. apply Hl. now right.
      * intros [= <- _]. right.
        apply (scan_line_Err line (set_f rest self) e1 s1); [|assumption].
        apply Hl. now left.
Qed.

(** X8: on a file none of whose lines is the empty string, as no line
    of a file is, and from a state without a timestamp, as [from_csv]
    sets it up, the header scan raises nothing but the exception with
    which [next(self.f)] stops ([StopIteration] at the end of the file,
    the error of the text layer on a file that fails to decode),
    [IndexError] (a selected field does not decode) or [csv.Error]. *)
Theorem find_headers_raises_only stop self e s' :
  timestamp self = None ->
  (forall l, In l (f self) -> l <> []) ->
  find_headers_until stop self = (Err e, s') ->
  e = next_raises stop \/ e = IndexError \/ e = csv_Error.
Proof.
  intros Ht Hl H. unfold find_headers_until in H.
  now apply find_headers_loop_until_Err in H.
Qed.

Lemma find_headers_raises_only_witness :
  let self := prepared [row [q "Plot Title: none"]] new_Hobo in
  (find_headers_until (ReadError UnicodeDecodeError) self).1
  = Err UnicodeDecodeError /\
  (UnicodeDecodeError = next_raises (ReadError UnicodeDecodeError) \/
   UnicodeDecodeError = IndexError \/ UnicodeDecodeError = csv_Error).
Proof.
  intros self. split; [vm_compute; reflexivity|].
  apply (find_headers_raises_only (ReadError UnicodeDecodeError) self
           UnicodeDecodeError
           (find_headers_until (ReadError UnicodeDecodeError) self).2).
  - reflexivity.
  - intros l [<-|[]]. discriminate.
  - vm_compute. reflexivity.
Defined.

(** ** What a scan has consumed and kept *)

Lemma find_headers_loop_summary file header self :
  f self = file ->
  let s' := (find_headers_loop file header self).2 in
  exists consumed,
    file = consumed ++ f s' /\
    title s' = (if title self is Some t then Some t
                else if consumed is l :: _
                     then Some (split colon None (strip l)) else None) /\
    sn s' = (if sn self is Some n then Some n
             else first_some (List.map Re.SN_REGEX_search consumed)).
Proof.
  revert header self. induction file as [|line rest IH]; intros header self Hf;
    cbn zeta.
  - exists []. cbn. destruct (timestamp self), header; cbn;
      rewrite Hf; destruct (title self), (sn self); auto.
  - destruct (timestamp self) eqn:Et.
    + exists []. cbn [find_headers_loop]. rewrite Et.
      destruct header; cbn; rewrite Hf; destruct (title self), (sn self); auto.
    + rewrite find_headers_loop_step by assumption.
      pose proof (scan_line_f line (set_f rest self)) as H1.
      pose proof (scan_line_title line (set_f rest self)) as H2.
      pose proof (scan_line_sn line (set_f rest self)) as H3.
      destruct (scan_line line (set_f rest self)) as [[[]|e] s1] eqn:E;
        cbn [snd f title sn set_f] in H1, H2, H3.
      * destruct (IH (Some line) s1 H1) as (consumed & Hc & Ht & Hs).
        cbn zeta in Hc, Ht, Hs. exists (line :: consumed).
        split; [cbn; now f_equal|]. rewrite Ht, Hs, H2, H3. cbn [List.map first_some].
        split; [now destruct (title self)|].
        destruct (sn self); [reflexivity|].
        now destruct (Re.SN_REGEX_search line).
      * exists [line]. cbn [snd app]. split; [now rewrite H1|].
        rewrite H2, H3. cbn [List.map first_some].
        split; [now destruct (title self)|].
        destruct (sn self); [reflexivity|].
        now destruct (Re.SN_REGEX_search line).
Qed.

(** X9: whatever the scan ends in, the lines it has taken from the file
    are a prefix of it; the title is the split of the first line taken
    and the serial number the first match among the lines taken, unless
    they were set before, and neither is overwritten once set. *)
Theorem find_headers_summary self :
  exists consumed,
    f self = consumed ++ f (find_headers self).2 /\
    title (find_headers self).2
    = (if title self is Some t then Some t
       else if consumed is l :: _
            then Some (split colon None (strip l)) else None) /\
    sn (find_headers self).2
    = (if sn self is Some n then Some n
       else first_some (List.map Re.SN_REGEX_search consumed)).
Proof. exact (find_headers_loop_summary (f self) None self eq_refl). Qed.

Lemma find_headers_loop_Ok file header self h s' :
  f self = file -> timestamp self = None ->
  find_headers_loop file header self = (Ok h, s') ->
  exists pre hs i,
    file = pre ++ h :: f s' /\
    (forall l, In l pre -> line_timestamp l = None /\ columns_ok l = true) /\
    columns_ok h = true /\ line_timestamp h = Some i /\
    timestamp s' = Some i /\
    Csv.first_row h = Ok hs /\ headers s' = Some hs.
Proof.
  revert header self h s'.
  induction file as [|line rest IH]; intros header self h s' Hf Ht.
  - cbn. rewrite Ht. discriminate.
  - rewrite find_headers_loop_step by assumption.
    pose proof (scan_line_f line (set_f rest self)) as H1.
    destruct (scan_line line (set_f rest self)) as [[[]|e] s1] eqn:E;
      [|discriminate]. cbn [snd f set_f] in H1.
    assert (Hok : columns_ok line = true).
    { apply (columns_ok_spec line (scanned line (set_f rest self))).
      rewrite <- scan_line_unfold, E. reflexivity. }
    pose proof (scan_line_Ok_timestamp _ _ _ E) as Hts.
    destruct (line_timestamp line) as [i|] eqn:Ei.
    + rewrite find_headers_loop_stop by congruence. intros [= <- <-].
      rewrite scan_line_unfold in E.
      apply find_columns_Ok in E as (hs & Hrow & Hs1).
      exists [], hs, i.
      split; [cbn; now rewrite H1|]. split; [intros ? []|].
      split; [assumption|]. split; [assumption|]. split; [congruence|].
      split; [assumption|]. rewrite Hs1. reflexivity.
    + intros H. destruct (IH (Some line) s1 h s' H1 Hts H)
        as (pre & hs & i & -> & Hpre & Hh).
      exists (line :: pre), hs, i. split; [reflexivity|]. split; [|exact Hh].
      intros l [<-|Hl]; [auto|now apply Hpre].
Qed.

(** X10: when the scan returns, the line it returns is the first line of
    the file with a timestamp column; column detection ran through on it
    and on every line before it; the file is left at the line that
    follows, and the stored headers and timestamp position are those of
    the returned line. *)
Theorem find_headers_returns self h s' :
  timestamp self = None ->
  find_headers self = (Ok h, s') ->
  exists pre hs i,
    f self = pre ++ h :: f s' /\
    (forall l, In l pre -> line_timestamp l = None /\ columns_ok l = true) /\
    columns_ok h = true /\ line_timestamp h = Some i /\
    timestamp s' = Some i /\
    Csv.first_row h = Ok hs /\ headers s' = Some hs.
Proof.
  intros Ht H. now apply (find_headers_loop_Ok (f self) None self h s').
Qed.

Lemma find_headers_returns_witness :
  let self := prepared sample_file new_Hobo in
  exists pre hs i,
    f self = pre ++ nth 1 sample_file [] :: f (find_headers self).2 /\
    (forall l, In l pre -> line_timestamp l = None /\ columns_ok l = true) /\
    columns_ok (nth 1 sample_file []) = true /\
    line_timestamp (nth 1 sample_file []) = Some i /\
    timestamp (find_headers self).2 = Some i /\
    Csv.first_row (nth 1 sample_file []) = Ok hs /\
    headers (find_headers self).2 = Some hs.
Proof.
  intros self.
  apply (find_headers_returns self (nth 1 sample_file []) (find_headers self).2).
  - reflexivity.
  - vm_compute. reflexivity.
Defined.

(** ** What the search of [SN_REGEX] returns *)

Lemma after_literal_Some kw s r : Re.after_literal kw s = Some r -> s = kw ++ r.
Proof.
  revert s. induction kw as [|a kw IH]; intros s; cbn.
  - destruct s; now intros [= <-].
  - destruct s as [|b s]; [discriminate|].
    destruct (N.eqb_spec a b) as [->|_]; [|discriminate].
    intros H. now rewrite (IH s H).
Qed.

Lemma takewhile_dropwhile p (s : pystr) :
  s = takewhile p s ++ dropwhile p s /\
  forallb p (takewhile p s) = true /\
  takewhile p (dropwhile p s) = [].
Proof.
  induction s as [|c s (IH1 & IH2 & IH3)]; cbn; [auto|].
  destruct (p c) eqn:E; cbn; rewrite ?E; cbn; [|auto].
  repeat split; [now f_equal|assumption..].
Qed.

Lemma digits_after_Some kw s ds :
  Re.digits_after kw s = Some ds ->
  exists rest, s = kw ++ ds ++ rest /\ ds <> [] /\
    forallb isdecimal ds = true /\ takewhile isdecimal rest = [].
Proof.
  unfold Re.digits_after.
  destruct (Re.after_literal kw s) as [r|] eqn:E; [|discriminate].
  apply after_literal_Some in E. subst s.
  destruct (takewhile_dropwhile isdecimal r) as (H1 & H2 & H3).
  destruct (takewhile isdecimal r) as [|d ds'] eqn:Et; [discriminate|].
  intros [= <-]. exists (dropwhile isdecimal r).
  repeat split; [now rewrite <- H1|discriminate|assumption..].
Qed.

Lemma SN_REGEX_match_Some s ds :
  Re.SN_REGEX_match s = Some ds ->
  exists K rest, s = K ++ ds ++ rest /\ SN_keyword K /\ ds <> [] /\
    forallb isdecimal ds = true /\ takewhile isdecimal rest = [].
Proof.
  unfold Re.SN_REGEX_match.
  destruct (Re.digits_after Re.kw_LGR s) as [d|] eqn:E1.
  - intros [= <-]. apply digits_after_Some in E1 as (rest & H).
    exists Re.kw_LGR, rest. unfold SN_keyword. tauto.
  - intros E2. apply digits_after_Some in E2 as (rest & H).
    exists Re.kw_Serial, rest. unfold SN_keyword. tauto.
Qed.

Lemma SN_REGEX_search_Some s ds :
  Re.SN_REGEX_search s = Some ds ->
  exists pre K rest,
    s = pre ++ K ++ ds ++ rest /\ SN_keyword K /\ ds <> [] /\
    forallb isdecimal ds = true /\ takewhile isdecimal rest = [] /\
    (forall a b, pre = a ++ b -> b <> [] ->
       Re.SN_REGEX_match (b ++ K ++ ds ++ rest) = None).
Proof.
  induction s as [|c s IH]; rewrite ReFacts.SN_REGEX_search_unfold.
  - destruct (Re.SN_REGEX_match []) as [d|] eqn:E; [|discriminate].
    intros [= <-]. apply SN_REGEX_match_Some in E as (K & rest & H).
    exists [], K, rest. cbn [app]. repeat split; try tauto.
    intros a b Hab Hb. now destruct a, b.
  - destruct (Re.SN_REGEX_match (c :: s)) as [d|] eqn:E.
    + intros [= <-]. apply SN_REGEX_match_Some in E as (K & rest & H).
      exists [], K, rest. cbn [app]. repeat split; try tauto.
      intros a b Hab Hb. now destruct a, b.
    + intros H. destruct (IH H) as (pre & K & rest & -> & HK & Hd & Hf & Hr & Hl).
      exists (c :: pre), K, rest. repeat split; try assumption.
      intros a b Hab Hb. destruct a as [|a0 a]; cbn [app] in Hab.
      * subst b. exact E.
      * injection Hab as -> ->. now apply (Hl a b).
Qed.

(** X11: what [SN_REGEX.search] returns on a line is a non-empty group
    of decimal digits that stands in the line right after [LGR S/N: ] or
    [Serial Number:], is not followed by a further digit, and is the
    leftmost such match. *)
Theorem SN_REGEX_search_sound line ds :
  Re.SN_REGEX_search line = Some ds ->
  exists pre K rest,
    line = pre ++ K ++ ds ++ rest /\
    (K = Re.kw_LGR \/ K = Re.kw_Serial) /\
    ds <> [] /\ forallb isdecimal ds = true /\
    takewhile isdecimal rest = [] /\
    (forall a b, pre = a ++ b -> b <> [] ->
       Re.SN_REGEX_match (b ++ K ++ ds ++ rest) = None).
Proof. apply SN_REGEX_search_Some. Qed.

Lemma SN_REGEX_search_sound_witness :
  exists pre K rest,
    str "Temp, °C (LGR S/N: 20563204, SEN S/N: 1)"
    = pre ++ K ++ str "20563204" ++ rest /\
    (K = Re.kw_LGR \/ K = Re.kw_Serial) /\
    str "20563204" <> [] /\ forallb isdecimal (str "20563204") = true /\
    takewhile isdecimal rest = [] /\
    (forall a b, pre = a ++ b -> b <> [] ->
       Re.SN_REGEX_match (b ++ K ++ str "20563204" ++ rest) = None).
Proof.
  apply (SN_REGEX_search_sound (str "Temp, °C (LGR S/N: 20563204, SEN S/N: 1)")).
  vm_compute. reflexivity.
Defined.

(** ** The metadata of a returned frame *)

Lemma isspace_values c :
  isspace c = true ->
  In c [9; 10; 11; 12; 13; 28; 29; 30; 31; 32; 133; 160; 5760; 8192; 8193;
        8194; 8195; 8196; 8197; 8198; 8199; 8200; 8201; 8202; 8232; 8233;
        8239; 8287; 12288]%N.
Proof.
  unfold isspace.
  rewrite !orb_true_iff, !andb_true_iff, !N.leb_le, !N.eqb_eq.
  intros H. cbn [In].
  repeat match type of H with _ \/ _ => destruct H as [H|H] end; lia.
Qed.

Lemma isdecimal_not_space c : isdecimal c = true -> isspace c = false.
Proof.
  intros Hd. destruct (isspace c) eqn:Hs; [|reflexivity].
  apply isspace_values in Hs. cbn [In] in Hs.
  repeat (destruct Hs as [<-|Hs]; [vm_compute in Hd; discriminate Hd|]).
  destruct Hs.
Qed.

Lemma dropwhile_none p (s : pystr) :
  forallb (fun c => negb (p c)) s = true -> dropwhile p s = s.
Proof.
  destruct s as [|c s]; cbn; [reflexivity|].
  destruct (p c); [discriminate|reflexivity].
Qed.

Lemma forallb_rev {A} (p : A -> bool) l : forallb p (rev l) = forallb p l.
Proof.
  induction l as [|a l IH]; [reflexivity|]. cbn.
  rewrite forallb_app, IH. cbn. rewrite andb_true_r. apply andb_comm.
Qed.

(** A string of decimal digits has nothing to strip. *)
Lemma strip_digits ds : forallb isdecimal ds = true -> strip ds = ds.
Proof.
  intros H.
  assert (Hn : forallb (fun c => negb (isspace c)) ds = true).
  { rewrite forallb_forall in *. intros c Hc.
    now rewrite (isdecimal_not_space c (H c Hc)). }
  unfold strip, rstrip_by, lstrip_by.
  rewrite (dropwhile_none isspace ds Hn), dropwhile_none.
  - apply rev_involutive.
  - now rewrite forallb_rev.
Qed.

Lemma first_some_map {A B} (g : A -> option B) l b :
  first_some (List.map g l) = Some b -> exists a, In a l /\ g a = Some b.
Proof.
  induction l as [|a l IH]; cbn; [discriminate|].
  destruct (g a) as [b'|] eqn:E.
  - intros [= <-]. exists a. auto.
  - intros H. destruct (IH H) as (a' & Hin & Ha'). exists a'. auto.
Qed.

Lemma set_meanings_frame (q0 : label) (items : list (pystr * Entry)) wf :
  let w := fold_left (fun w' kv =>
             if label_eqb (item0 kv.2) q0
             then set_meaning q0 (mkMeaning (item1 kv.2) (item2 kv.2)) w'
             else w') items wf in
  metadata w = metadata wf /\ data w = data wf.
Proof.
  revert wf. induction items as [|kv items IH]; intros wf; [split; reflexivity|].
  cbn [fold_left] in *.
  match goal with |- context [fold_left _ items ?w0] =>
    destruct (IH w0) as [-> ->] end.
  destruct (label_eqb (item0 kv.2) q0); split; reflexivity.
Qed.

Lemma add_meaning_frame names ps wf :
  metadata (add_meaning names ps wf) = metadata wf /\
  data (add_meaning names ps wf) = data wf.
Proof.
  unfold add_meaning. revert wf. induction ps as [|q0 ps IH]; intros wf.
  - split; reflexivity.
  - cbn [fold_left].
    match goal with |- context [fold_left _ ps ?w0] =>
      destruct (IH w0) as [-> ->] end.
    apply set_meanings_frame.
Qed.

Section FromCsvReturns.

Context (ext : Collaborators).

(** The stages a call of [from_csv] that returns has gone through. *)
Lemma from_csv_Ok file self wf s' :
  from_csv ext file false self = (Ok wf, s') ->
  exists h s1 md hs df table,
    find_headers (prepared file self) = (Ok h, s1) /\
    build_metadata s1 = Ok md /\
    headers s1 = Some hs /\
    read_table ext (f s1) hs (timestamp s1) = Ok df /\
    assemble (name s1) df = Ok table /\
    s' = set_f [] s1 /\
    metadata wf = md /\ data wf = table.
Proof.
  unfold from_csv, bind, modify, get, lift, ret. cbn beta iota.
  change (set_name _ _) with (prepared file self).
  destruct (find_headers (prepared file self)) as [[h|e] s1] eqn:E1;
    [|discriminate].
  destruct (build_metadata s1) as [md|e] eqn:E2; [|discriminate].
  destruct (headers s1) as [hs|] eqn:E3; [|discriminate].
  destruct (read_table ext (f s1) hs (timestamp s1)) as [df|e] eqn:E4;
    [|discriminate].
  destruct (assemble (name s1) df) as [table|e] eqn:E5; [|discriminate].
  intros [= <- <-]. exists h, s1, md, hs, df, table.
  destruct (add_meaning_frame (name s1)
              (parameters ext (mkWaterFrame md table ∅))
              (mkWaterFrame md table ∅)) as [Hm Hd].
  repeat split; try reflexivity; assumption.
Qed.

(** X12: when [from_csv] returns (without QC tests), the file is read to
    its end, the first line of the file holds a colon and a later or the
    same line a serial number: the metadata carries under [S/N] the
    digit group of the first line that matches [SN_REGEX], a non-empty
    string of decimal digits, and under the text before the first colon
    of the first line the trimmed text up to the next colon, unless that
    key is [S/N] itself. *)
Theorem from_csv_metadata file self wf s' :
  from_csv ext file false self = (Ok wf, s') ->
  f s' = [] /\
  (exists line ds,
     In line file /\ Re.SN_REGEX_search line = Some ds /\
     ds <> [] /\ forallb isdecimal ds = true /\
     metadata wf !! str "S/N" = Some ds) /\
  (exists first rest k v more,
     file = first :: rest /\
     split colon None (strip first) = k :: v :: more /\
     (k <> str "S/N" -> metadata wf !! k = Some (strip v))).
Proof.
  intros H. apply from_csv_Ok in H
    as (h & s1 & md & hs & df & table & Hscan & Hmd & _ & _ & _ & -> & -> & _).
  split; [reflexivity|].
  destruct (find_headers_loop_summary file None (prepared file self) eq_refl)
    as (consumed & Hfile & Ht & Hs).
  cbn zeta in Hfile, Ht, Hs. fold (find_headers (prepared file self)) in Hfile, Ht, Hs.
  unfold find_headers in Hscan at 1.
  cbn [prepared f set_name set_timestamp set_sn set_title set_f] in Hscan.
  rewrite Hscan in Hfile, Ht, Hs. cbn [snd] in Hfile, Ht, Hs.
  cbn [prepared title sn set_name set_timestamp set_sn set_title set_f] in Ht, Hs.
  unfold build_metadata, title_item, serial_item in Hmd.
  rewrite Ht, Hs in Hmd.
  destruct consumed as [|first consumed]; [discriminate Hmd|].
  cbn [subscriptable res_bind] in Hmd.
  destruct (split colon None (strip first)) as [|k [|v more]] eqn:Esplit;
    try discriminate Hmd.
  cbn [getitem nth_error res_bind] in Hmd.
  destruct (first_some (List.map Re.SN_REGEX_search (first :: consumed)))
    as [n|] eqn:En; [|discriminate Hmd].
  cbn [has_strip res_bind fst snd] in Hmd. injection Hmd as <-.
  apply first_some_map in En as (line & Hin & Hline).
  pose proof (SN_REGEX_search_Some line n Hline)
    as (_ & _ & _ & _ & _ & Hne & Hdig & _).
  rewrite (strip_digits n Hdig). split.
  - exists line, n. repeat split; try assumption.
    + rewrite Hfile. apply in_or_app. now left.
    + apply lookup_insert_eq.
  - exists first, (consumed ++ f s1), k, v, more.
    split; [exact Hfile|]. split; [exact Esplit|].
    intros Hk. rewrite lookup_insert_ne by congruence. apply lookup_insert_eq.
Qed.

End FromCsvReturns.

Lemma from_csv_metadata_witness :
  exists wf s',
    from_csv Plain.collaborators sample_file false new_Hobo = (Ok wf, s') /\
    f s' = [] /\
    (exists line ds,
       In line sample_file /\ Re.SN_REGEX_search line = Some ds /\
       ds <> [] /\ forallb isdecimal ds = true /\
       metadata wf !! str "S/N" = Some ds) /\
    (exists first rest k v more,
       sample_file = first :: rest /\
       split colon None (strip first) = k :: v :: more /\
       (k <> str "S/N" -> metadata wf !! k = Some (strip v))).
Proof.
  do 2 eexists. split; [vm_compute; reflexivity|].
  apply (from_csv_metadata Plain.collaborators sample_file new_Hobo).
  vm_compute. reflexivity.
Defined.

(** ** Lines without quotes *)

Module CsvPlain.

Import Csv.

Local Open Scope N_scope.

Lemma plain_tests c :
  plain c = true ->
  (c =? NUL) = false /\ (c =? LF) = false /\ (c =? CR) = false /\
  (c =? dquote) = false /\ is_eol c = false.
Proof.
  unfold plain, is_eol. rewrite !andb_true_iff, !negb_true_iff.
  intros (((-> & ->) & ->) & ->). auto.
Qed.

(** On a plain character the reader does the same in [START_FIELD] and
    in [IN_FIELD]: a comma saves the field, any other character joins
    it. *)
Lemma parse_plain_char r c :
  (state r = START_FIELD \/ state r = IN_FIELD) ->
  plain c = true ->
  N.of_nat (length (field r)) < field_limit ->
  parse_process_char r c =
  Ok (if c =? comma then mkReader START_FIELD (fields r ++ [field r]) []
      else mkReader IN_FIELD (fields r) (field r ++ [c])).
Proof.
  intros Hst Hc Hlen. destruct (plain_tests c Hc) as (_ & _ & _ & Hq & He).
  destruct r as [st fs fl]. cbn [state fields field] in *.
  assert (Hadd : forall st', parse_add_char (mkReader st' fs fl) c
                             = Ok (mkReader st' fs (fl ++ [c]))).
  { intros st'. unfold parse_add_char. cbn [state fields field].
    now rewrite (proj2 (N.leb_gt _ _) Hlen). }
  unfold parse_process_char, start_field. cbn [state].
  destruct Hst as [-> | ->]; rewrite He; try rewrite Hq;
    destruct (c =? comma); try reflexivity; now rewrite Hadd.
Qed.

Lemma removelast_cons {A} (x : A) l : l <> [] -> List.removelast (x :: l) = x :: List.removelast l.
Proof. now destruct l. Qed.

Lemma last_cons {A} (x : A) l d : l <> [] -> List.last (x :: l) d = List.last l d.
Proof. now destruct l. Qed.

Lemma process_plain s r :
  (state r = START_FIELD \/ state r = IN_FIELD) ->
  forallb plain s = true ->
  ~ In comma (field r) ->
  N.of_nat (length (field r) + length s) <= field_limit ->
  exists st,
    (st = START_FIELD \/ st = IN_FIELD) /\
    process_line r s
    = Ok (mkReader st
            (fields r ++ List.removelast (split comma None (field r ++ s)))
            (List.last (split comma None (field r ++ s)) [])).
Proof.
  revert r. induction s as [|c s IH]; intros r Hst Hp Hf Hlen.
  - exists (state r). split; [assumption|]. cbn [process_line].
    rewrite !app_nil_r, split_no_sep by assumption. cbn.
    rewrite app_nil_r. now destruct r.
  - cbn [forallb] in Hp. apply andb_true_iff in Hp as [Hc Hp].
    cbn [length] in Hlen.
    cbn [process_line]. rewrite (proj1 (plain_tests c Hc)).
    rewrite parse_plain_char by (assumption || lia). cbn [res_bind].
    destruct (N.eqb_spec c comma) as [->|Hne].
    + destruct (IH (mkReader START_FIELD (fields r ++ [field r]) []))
        as (st & Hst' & ->); cbn [state field fields length];
        [now left|assumption|tauto|lia|].
      exists st. split; [assumption|].
      rewrite split_at_sep by (assumption || discriminate).
      cbn [fmap option_fmap option_map app].
      rewrite removelast_cons, last_cons by apply split_not_nil.
      now rewrite <- app_assoc.
    + destruct (IH (mkReader IN_FIELD (fields r) (field r ++ [c])))
        as (st & Hst' & ->); cbn [state field fields];
        [now right|assumption| |rewrite length_app; cbn [length]; lia|].
      * intros H. apply in_app_or in H as [H|[H|[]]]; [tauto|congruence].
      * exists st. split; [assumption|]. now rewrite <- app_assoc.
Qed.

Lemma process_line_app r a b :
  process_line r (a ++ b) = (r1 <-? process_line r a ;; process_line r1 b).
Proof.
  revert r. induction a as [|c a IH]; intros r; cbn [app process_line res_bind].
  - reflexivity.
  - destruct (c =? NUL); [reflexivity|].
    destruct (parse_process_char r c); cbn [res_bind]; [apply IH|reflexivity].
Qed.

Lemma StringIO_one_line cur s :
  ~ In LF s -> StringIO_lines cur (s ++ [LF]) = [cur ++ s ++ [LF]].
Proof.
  revert cur. induction s as [|c s IH]; intros cur Hs; cbn [app StringIO_lines].
  - now rewrite N.eqb_refl.
  - destruct (N.eqb_spec c LF) as [->|_].
    + exfalso. apply Hs. now left.
    + rewrite IH by (intros H; apply Hs; now right).
      now rewrite <- app_assoc.
Qed.

Lemma first_row_plain s :
  s <> [] -> forallb plain s = true ->
  N.of_nat (length s) <= field_limit ->
  first_row (s ++ [LF]) = Ok (split comma None s).
Proof.
  intros Hne Hp Hlen. unfold first_row.
  rewrite StringIO_one_line.
  2:{ intros H. rewrite forallb_forall in Hp. apply Hp, plain_tests in H.
      destruct H as (_ & H & _). now rewrite N.eqb_refl in H. }
  cbn [app Reader_iternext_loop].
  assert (Hstart : process_line parse_reset (s ++ [LF])
                   = process_line (mkReader START_FIELD [] []) (s ++ [LF])).
  { destruct s as [|c s]; [congruence|]. cbn [app process_line forallb] in *.
    apply andb_true_iff in Hp as [Hc _].
    destruct (plain_tests c Hc) as (H0 & H1 & H2 & _).
    rewrite H0. unfold parse_process_char. cbn [state parse_reset].
    now rewrite H0, H1, H2. }
  rewrite Hstart, process_line_app.
  destruct (process_plain s (mkReader START_FIELD [] []))
    as (st & Hst & ->); cbn [state field fields length];
    [now left|assumption|tauto|lia|].
  cbn [res_bind app process_line].
  change (LF =? NUL) with false. cbn iota.
  assert (HLF : forall r, state r = START_FIELD \/ state r = IN_FIELD ->
            parse_process_char r LF
            = Ok (mkReader EAT_CRNL (fields r ++ [field r]) [])).
  { intros r [E|E]; unfold parse_process_char, start_field; rewrite E; reflexivity. }
  rewrite HLF by exact Hst. cbn [res_bind].
  unfold parse_process_char. cbn [state fields field]. cbn.
  rewrite <- app_removelast_last by apply split_not_nil. reflexivity.
Qed.

End CsvPlain.

Lemma find_columns_headers header hs self :
  Csv.first_row header = Ok hs ->
  headers (find_columns header self).2 = Some hs /\
  timestamp (find_columns header self).2 = find_col_timestamp hs.
Proof.
  intros Hrow. rewrite find_columns_unfold, Hrow.
  pose proof (keeps_classify hs
    (set_timestamp (find_col_timestamp hs) (set_headers (Some hs) self))) as K.
  red in K. rewrite K. split; reflexivity.
Qed.

(** X13: on a line without double quotes, carriage returns or NULs that
    ends in its newline, [find_columns] stores as headers the plain
    split of the line at its commas, and as timestamp the position of
    the first piece with a timestamp marker, whether or not the channel
    passes raise afterwards. *)
Theorem find_columns_unquoted_line s self :
  s <> [] -> forallb plain s = true ->
  (N.of_nat (length s) <= Csv.field_limit)%N ->
  Csv.first_row (s ++ [LF]) = Ok (split comma None s) /\
  headers (find_columns (s ++ [LF]) self).2 = Some (split comma None s) /\
  timestamp (find_columns (s ++ [LF]) self).2
  = find_col_timestamp (split comma None s).
Proof.
  intros Hne Hp Hlen.
  pose proof (CsvPlain.first_row_plain s Hne Hp Hlen) as Hrow.
  split; [exact Hrow|]. now apply find_columns_headers.
Qed.

Lemma find_columns_unquoted_line_witness :
  let s := str "#,Date Time,Temp (C),Batt" in
  Csv.first_row (s ++ [LF]) = Ok (split comma None s) /\
  headers (find_columns (s ++ [LF]) new_Hobo).2
  = Some [str "#"; str "Date Time"; str "Temp (C)"; str "Batt"] /\
  timestamp (find_columns (s ++ [LF]) new_Hobo).2 = Some 1%nat.
Proof.
  intros s.
  apply (find_columns_unquoted_line s new_Hobo);
    [discriminate|vm_compute; reflexivity|vm_compute; discriminate].
Defined.

(** ** The table through renaming, filtering and the QC loop *)

Lemma setitem_zero key (d : DataFrame.t) :
  index (setitem key 0 d) = index d /\
  In (key, zeros d) (columns (setitem key 0 d)) /\
  (forall l, In (l, zeros d) (columns d) ->
             In (l, zeros d) (columns (setitem key 0 d))) /\
  (forall l, In l (keys d) -> In l (keys (setitem key 0 d))).
Proof.
  unfold setitem. fold (zeros d).
  destruct (existsb (label_eqb key) (keys d)) eqn:E; cbn [index columns].
  - split; [reflexivity|]. split; [|split].
    + apply existsb_label in E. apply in_map_iff in E as ([l v] & Hl & Hin).
      cbn in Hl. subst l. apply in_map_iff. exists (key, v).
      split; [|assumption]. unfold assign. cbn [fst].
      now rewrite (proj2 (label_eqb_eq key key) eq_refl).
    + intros l Hl. apply in_map_iff. exists (l, zeros d).
      split; [|assumption]. unfold assign. cbn [fst].
      now destruct (label_eqb l key).
    + intros l Hl. unfold keys in *. cbn [columns]. rewrite List.map_map.
      apply in_map_iff in Hl as (c & <- & Hc). apply in_map_iff. exists c.
      split; [|assumption]. unfold assign. now destruct (label_eqb c.1 key).
  - split; [reflexivity|]. split; [|split].
    + apply in_or_app. right. now left.
    + intros l Hl. apply in_or_app. now left.
    + intros l Hl. unfold keys in *. cbn [columns]. rewrite List.map_app.
      apply in_or_app. now left.
Qed.

Lemma add_QC_fold_zeros ks (d : DataFrame.t) :
  let final := fold_left (fun d' key => setitem (QC_label key) 0 d') ks d in
  index final = index d /\
  (forall l, In (l, zeros d) (columns d) -> In (l, zeros d) (columns final)) /\
  (forall k, In k ks -> In (QC_label k, zeros d) (columns final)) /\
  (forall l, In l (keys d) -> In l (keys final)).
Proof.
  revert d. induction ks as [|k ks IH]; intros d; cbn zeta.
  - cbn. repeat split; auto. intros k [].
  - cbn [fold_left].
    destruct (setitem_zero (QC_label k) d) as (Hi & Hk & Hz & Hl).
    destruct (IH (setitem (QC_label k) 0 d)) as (Hi' & Hz' & Hk' & Hl').
    cbn zeta in *.
    assert (Ez : zeros (setitem (QC_label k) 0 d) = zeros d)
      by (unfold zeros; now rewrite Hi).
    rewrite Ez in *. split; [congruence|]. split; [|split].
    + intros l H. now apply Hz', Hz.
    + intros k' [<-|H]; [now apply Hz'|now apply Hk'].
    + intros l H. now apply Hl', Hl.
Qed.

(** X14: whatever the labels of the filtered frame, distinct or not,
    the QC loop keeps the row index and every label, and leaves for
    every key of the frame a column named after it with [_QC] that holds
    one zero per row. *)
Theorem add_QC_keys_zeros (df : DataFrame.t) :
  index (add_QC_keys df) = index df /\
  (forall k, In k (keys df) ->
     In k (keys (add_QC_keys df)) /\
     In (Some (format_QC k), List.map (fun _ => Int 0) (index df))
        (columns (add_QC_keys df))).
Proof.
  destruct (add_QC_fold_zeros (keys df) df) as (Hi & _ & Hk & Hl).
  split; [exact Hi|]. intros k Hin. split; [now apply Hl|now apply Hk].
Qed.

Lemma rename_column_values names (df df' : DataFrame.t) col :
  rename_column names df col = Ok df' ->
  index df' = index df /\
  List.map snd (columns df') = List.map snd (columns df).
Proof.
  assert (Hr : forall new, index (rename col new df) = index df /\
            List.map snd (columns (rename col new df)) = List.map snd (columns df)).
  { intros new. split; [reflexivity|]. unfold rename. cbn [columns].
    rewrite List.map_map. apply map_ext. intros c. unfold relabel.
    now destruct (label_eqb c.1 col). }
  unfold rename_column. destruct col as [c|]; [|discriminate].
  repeat match goal with
  | |- context [if ?b then _ else _] => destruct b
  end; intros [= <-]; auto.
Qed.

Lemma rename_columns_values names (df renamed : DataFrame.t) :
  rename_columns names df = Ok renamed ->
  index renamed = index df /\
  List.map snd (columns renamed) = List.map snd (columns df).
Proof.
  unfold rename_columns. generalize (keys df) as ls. intros ls. revert df.
  induction ls as [|l ls IH]; intros df; cbn [foldM].
  - now intros [= <-].
  - destruct (rename_column names df l) as [d1|e] eqn:E; [|discriminate].
    cbn [res_bind]. intros H. apply IH in H as [H1 H2].
    apply rename_column_values in E as [E1 E2]. split; congruence.
Qed.

Lemma filter_values items (df retained : DataFrame.t) :
  DataFrame.filter items df = Ok retained ->
  index retained = index df /\
  forall c, In c (columns retained) -> In c (columns df).
Proof.
  unfold DataFrame.filter. destruct (labels_eqb _ _).
  - intros [= <-]. auto.
  - destruct (unique (keys df)).
    + intros [= <-]. split; [reflexivity|]. cbn [columns]. intros c Hc.
      apply in_flat_map in Hc as (r & _ & Hc). now apply select_label in Hc.
    + destruct (List.filter _ items); [|discriminate].
      intros [= <-]. split; [reflexivity|]. intros c [].
Qed.

(** X15: renaming and filtering only relabel and select: the row index
    is the one read from the file, no column is added by the renaming,
    and every retained column holds the values of a column that was
    read. *)
Theorem rename_filter_keep_values names (df renamed retained : DataFrame.t) :
  rename_columns names df = Ok renamed ->
  DataFrame.filter (filter_items names) renamed = Ok retained ->
  index retained = index df /\
  length (columns renamed) = length (columns df) /\
  (forall l v, In (l, v) (columns retained) ->
     exists l0, In (l0, v) (columns df)).
Proof.
  intros Hr Hf. apply rename_columns_values in Hr as [Hi Hv].
  apply filter_values in Hf as [Hi' Hc].
  split; [congruence|]. split.
  - rewrite <- (length_map snd (columns renamed)), Hv. apply length_map.
  - intros l v Hin. apply Hc in Hin.
    assert (H : In v (List.map snd (columns renamed)))
      by (apply in_map_iff; now exists (l, v)).
    rewrite Hv in H. apply in_map_iff in H as ([l0 v0] & E & H0).
    cbn in E. subst v0. now exists l0.
Qed.

Lemma rename_filter_keep_values_witness :
  let renamed := DataFrame.mk (index sample_frame)
    [(Some (str "#"), [Cell (str "1"); Cell (str "2")]);
     (Some (str "Temp"), [Cell (str "21.5"); Cell (str "21.6")]);
     (Some (str "Coupler Detached (LGR S/N: 20563204)"),
      [Cell (str ""); Cell (str "")])] in
  let retained := DataFrame.mk (index sample_frame)
    [(Some (str "Temp"), [Cell (str "21.5"); Cell (str "21.6")])] in
  rename_columns sample_names sample_frame = Ok renamed /\
  DataFrame.filter (filter_items sample_names) renamed = Ok retained /\
  index retained = index sample_frame /\
  length (columns renamed) = length (columns sample_frame) /\
  (forall l v, In (l, v) (columns retained) ->
     exists l0, In (l0, v) (columns sample_frame)).
Proof.
  intros renamed retained.
  assert (H1 : rename_columns sample_names sample_frame = Ok renamed)
    by (vm_compute; reflexivity).
  assert (H2 : DataFrame.filter (filter_items sample_names) renamed = Ok retained)
    by (vm_compute; reflexivity).
  split; [exact H1|]. split; [exact H2|].
  exact (rename_filter_keep_values sample_names sample_frame renamed retained
           H1 H2).
Defined.

(** ** The meaning of the parameters *)

Lemma find_snoc {A} (P : A -> bool) l x :
  List.find P (l ++ [x])
  = match List.find P l with
    | Some y => Some y
    | None => if P x then Some x else None
    end.
Proof.
  induction l as [|a l IH]; cbn; [reflexivity|].
  destruct (P a); [reflexivity|assumption].
Qed.

Lemma label_eqb_sym (a b : label) : label_eqb a b = label_eqb b a.
Proof.
  destruct (label_eqb a b) eqn:E1, (label_eqb b a) eqn:E2; try reflexivity.
  - apply label_eqb_eq in E1. subst.
    now rewrite (proj2 (label_eqb_eq b b) eq_refl) in E2.
  - apply label_eqb_eq in E2. subst.
    now rewrite (proj2 (label_eqb_eq a a) eq_refl) in E1.
Qed.

Lemma set_meanings_lookup (q0 p : label) (items : list (pystr * Entry)) wf :
  let w := fold_left (fun w' kv =>
             if label_eqb (item0 kv.2) q0
             then set_meaning q0 (mkMeaning (item1 kv.2) (item2 kv.2)) w'
             else w') items wf in
  meaning w !! p
  = if label_eqb p q0
    then match List.find (fun kv => label_eqb (item0 kv.2) p) (rev items) with
         | Some kv => Some (mkMeaning (item1 kv.2) (item2 kv.2))
         | None => meaning wf !! p
         end
    else meaning wf !! p.
Proof.
  revert wf. induction items as [|kv items IH]; intros wf; cbn zeta.
  - cbn. now destruct (label_eqb p q0).
  - cbn [fold_left rev].
    match goal with |- context [fold_left _ items ?w0] =>
      rewrite (IH w0) end.
    rewrite find_snoc.
    destruct (label_eqb p q0) eqn:Epq.
    + apply label_eqb_eq in Epq. subst q0.
      destruct (List.find _ (rev items)); [reflexivity|].
      destruct (label_eqb (item0 kv.2) p); [|reflexivity].
      cbn [meaning set_meaning]. apply lookup_insert_eq.
    + destruct (label_eqb (item0 kv.2) q0); [|reflexivity].
      cbn [meaning set_meaning]. apply lookup_insert_ne.
      intros ->. now rewrite (proj2 (label_eqb_eq p p) eq_refl) in Epq.
Qed.

(** X16: after the loop of lines 188 to 191, a parameter that is the
    display name of a slot carries the long name and the units of the
    last such slot in the order temp, pres, rh, batt; a parameter that
    names no slot, and any label that is no parameter, keep what they
    had. *)
Theorem add_meaning_lookup names ps wf (p : label) :
  meaning (add_meaning names ps wf) !! p
  = if existsb (label_eqb p) ps
    then match last_slot names p with
         | Some kv => Some (mkMeaning (item1 kv.2) (item2 kv.2))
         | None => meaning wf !! p
         end
    else meaning wf !! p.
Proof.
  unfold add_meaning, last_slot. revert wf.
  induction ps as [|q0 ps IH]; intros wf; [reflexivity|].
  cbn [fold_left existsb].
  match goal with |- context [fold_left _ ps ?w0] => rewrite (IH w0) end.
  rewrite (set_meanings_lookup q0 p (name_items names) wf).
  destruct (label_eqb p q0), (existsb (label_eqb p) ps); cbn [orb];
    try reflexivity.
  now destruct (List.find _ (rev (name_items names))).
Qed.

(** ** Attributes left by an earlier call *)

Lemma same_but_headers_fields s s' :
  same_but_headers s s' <->
  f s = f s' /\ title s = title s' /\ sn s = sn s' /\
  timestamp s = timestamp s' /\ name s = name s'.
Proof.
  unfold same_but_headers. destruct s, s'. cbn. split.
  - intros [= -> -> -> -> ->]. auto.
  - intros (-> & -> & -> & -> & ->). reflexivity.
Qed.

Lemma same_but_headers_set hs s s' :
  same_but_headers s s' -> set_headers (Some hs) s = set_headers (Some hs) s'.
Proof.
  intros H. apply same_but_headers_fields in H.
  destruct s, s'. cbn in *. destruct H as (-> & -> & -> & -> & ->).
  reflexivity.
Qed.

Lemma same_but_headers_scanned line s s' :
  same_but_headers s s' -> same_but_headers (scanned line s) (scanned line s').
Proof.
  intros H. apply same_but_headers_fields in H.
  apply same_but_headers_fields.
  destruct s as [f0 t0 n0 ts0 nm0 h0], s' as [f1 t1 n1 ts1 nm1 h1]. cbn in H.
  destruct H as (-> & -> & -> & -> & ->).
  unfold scanned. cbn [title sn].
  destruct t1, n1; cbn; auto 10.
Qed.

(** From two states that differ in the headers only, one line of the
    scan ends in the same state, or raises the same exception and keeps
    the difference. *)
Lemma scan_line_same_but_headers line s s' :
  same_but_headers s s' ->
  scan_line line s = scan_line line s' \/
  exists e t t',
    scan_line line s = (Err e, t) /\ scan_line line s' = (Err e, t') /\
    same_but_headers t t'.
Proof.
  intros H. apply (same_but_headers_scanned line) in H.
  rewrite !scan_line_unfold, !find_columns_unfold.
  destruct (Csv.first_row line) as [hs|e].
  - left. now rewrite (same_but_headers_set hs _ _ H).
  - right. exists e, (scanned line s), (scanned line s'). auto.
Qed.

Lemma find_headers_loop_same_but_headers file header s s' :
  same_but_headers s s' ->
  let r := find_headers_loop file header s in
  let r' := find_headers_loop file header s' in
  r.1 = r'.1 /\ same_but_headers r.2 r'.2 /\
  (timestamp s = None -> forall h, r.1 = Ok h -> r.2 = r'.2).
Proof.
  revert header s s'. induction file as [|line rest IH]; intros header s s' H;
    pose proof (proj1 (same_but_headers_fields s s') H) as (_ & _ & _ & Hts & _);
    cbn zeta.
  - cbn. rewrite <- Hts. destruct (timestamp s).
    + destruct header; cbn; repeat split; auto; congruence.
    + cbn. repeat split; auto. discriminate.
  - destruct (timestamp s) eqn:Et.
    + cbn [find_headers_loop]. rewrite <- Hts, Et.
      destruct header; cbn; repeat split; auto; congruence.
    + rewrite !find_headers_loop_step by congruence.
      assert (H0 : same_but_headers (set_f rest s) (set_f rest s')).
      { apply same_but_headers_fields in H.
        apply same_but_headers_fields. destruct s, s'. cbn in *. tauto. }
      destruct (scan_line_same_but_headers line _ _ H0)
        as [E|(e & t & t' & -> & -> & Ht)].
      * rewrite <- E. destruct (scan_line line (set_f rest s)) as [[[]|e] s1].
        -- repeat split; auto.
        -- cbn. repeat split; auto.
      * cbn. repeat split; auto. discriminate.
Qed.

(** X17: what [from_csv] returns or raises does not depend on the
    attributes an earlier call has left on the instance: it sets the
    file, the title, the serial number, the timestamp and the names
    anew, and the headers left over are replaced before they are
    read. *)
Theorem from_csv_ignores_leftovers ext file qc self self' :
  (from_csv ext file qc self).1 = (from_csv ext file qc self').1.
Proof.
  assert (H : same_but_headers (prepared file self) (prepared file self'))
    by (apply same_but_headers_fields; cbn; auto).
  destruct (find_headers_loop_same_but_headers file None _ _ H)
    as (Hr & _ & Heq). cbn zeta in Hr, Heq.
  specialize (Heq eq_refl).
  unfold from_csv, bind, modify, get, lift. cbn beta iota.
  change (set_name initial_names
            (set_timestamp None (set_sn None (set_title None (set_f file self)))))
    with (prepared file self).
  change (set_name initial_names
            (set_timestamp None (set_sn None (set_title None (set_f file self')))))
    with (prepared file self').
  unfold find_headers.
  change (f (prepared file self)) with file.
  change (f (prepared file self')) with file.
  destruct (find_headers_loop file None (prepared file self)) as [[h|e] s1];
    destruct (find_headers_loop file None (prepared file self')) as [[h'|e'] s1'];
    cbn [fst snd] in Hr, Heq; try discriminate Hr.
  - rewrite <- (Heq h eq_refl). reflexivity.
  - cbn. congruence.
Qed.

(** ** The two temperature markers *)

Lemma startswith_app a b s :
  startswith (a ++ b) s = true -> exists t, s = a ++ t /\ startswith b t = true.
Proof.
  revert s. induction a as [|x a IH]; intros s; cbn [app].
  - intros H. now exists s.
  - destruct s as [|y s]; cbn [startswith]; [destruct (a ++ b); discriminate|].
    rewrite andb_true_iff, N.eqb_eq. intros [-> H].
    destruct (IH s H) as (t & -> & Ht). now exists t.
Qed.

Lemma contains_skip b a t : contains b t = true -> contains b (a ++ t) = true.
Proof.
  intros H. induction a as [|x a IH]; [assumption|].
  cbn [app contains]. rewrite IH. apply orb_true_r.
Qed.

Lemma contains_startswith b t : startswith b t = true -> contains b t = true.
Proof. intros H. destruct t; cbn [contains]; now rewrite H. Qed.

Lemma contains_tail a b s : contains (a ++ b) s = true -> contains b s = true.
Proof.
  induction s as [|c s IH]; intros H.
  - cbn [contains] in H. rewrite orb_false_r in H.
    apply startswith_app in H as (t & E & Ht).
    symmetry in E. apply app_eq_nil in E as [_ ->].
    now apply contains_startswith.
  - cbn [contains] in H. apply orb_true_iff in H as [H|H].
    + apply startswith_app in H as (t & E & Ht). rewrite E.
      apply contains_skip. now apply contains_startswith.
    + change (c :: s) with ([c] ++ s). apply contains_skip. now apply IH.
Qed.

(** X18: a field selected by the first pass through [High Res. Temp.]
    is always selected by the second pass too, since it holds [Temp.];
    with [High-Res Temp] this depends on what follows the marker. *)
Theorem high_res_is_fallback header :
  contains (str "High Res. Temp.") header = true ->
  contains (str "Temp.") header = true /\ is_fallback header = true.
Proof.
  intros H.
  assert (Ht : contains (str "Temp.") header = true)
    by now apply (contains_tail (str "High Res. ") (str "Temp.")).
  split; [exact Ht|]. unfold is_fallback, temp_markers. cbn [existsb].
  rewrite Ht. apply orb_true_r.
Qed.

Lemma high_res_is_fallback_witness :
  contains (str "Temp.") (str "High Res. Temp., °C (LGR S/N: 1)") = true /\
  is_fallback (str "High Res. Temp., °C (LGR S/N: 1)") = true /\
  is_high_res (str "High-Res Temp (C), x") = true /\
  is_fallback (str "High-Res Temp (C), x") = false.
Proof.
  destruct (high_res_is_fallback (str "High Res. Temp., °C (LGR S/N: 1)"))
    as [H1 H2]; [vm_compute; reflexivity|].
  repeat split; try assumption; vm_compute; reflexivity.
Defined.

(** ** Records of quoted fields *)

Module CsvQuoted.

Import Csv.

Local Open Scope N_scope.

Lemma in_quotes s fs cur :
  forallb inside s = true ->
  N.of_nat (length cur + length s) <= field_limit ->
  process_line (mkReader IN_QUOTED_FIELD fs cur) s
  = Ok (mkReader IN_QUOTED_FIELD fs (cur ++ s)).
Proof.
  revert cur. induction s as [|c s IH]; intros cur Hs Hlen.
  - cbn. now rewrite app_nil_r.
  - cbn [forallb] in Hs. apply andb_true_iff in Hs as [Hc Hs].
    unfold inside in Hc. rewrite !andb_true_iff, !negb_true_iff in Hc.
    destruct Hc as ((Hq & Hn) & _). cbn [length] in Hlen.
    cbn [process_line]. rewrite Hn. unfold parse_process_char at 1.
    cbn [state]. rewrite Hn, Hq. unfold parse_add_char. cbn [field fields state].
    rewrite (proj2 (N.leb_gt _ _)) by lia. cbn [res_bind].
    rewrite IH by (assumption || (rewrite length_app; cbn [length]; lia)).
    now rewrite <- app_assoc.
Qed.

Lemma quoted_field s fs :
  forallb inside s = true -> N.of_nat (length s) <= field_limit ->
  process_line (mkReader START_FIELD fs []) (quoted s)
  = Ok (mkReader QUOTE_IN_QUOTED_FIELD fs s).
Proof.
  intros Hs Hlen. unfold quoted. cbn [process_line].
  change (dquote =? NUL) with false. cbn iota.
  change (parse_process_char (mkReader START_FIELD fs []) dquote)
    with (Ok (mkReader IN_QUOTED_FIELD fs [])).
  cbn [res_bind]. rewrite CsvPlain.process_line_app, in_quotes by assumption.
  reflexivity.
Qed.

Lemma quoted_fields fields fs :
  fields <> [] ->
  Forall (fun s => forallb inside s = true /\
                   N.of_nat (length s) <= field_limit) fields ->
  process_line (mkReader START_FIELD fs []) (join [comma] (List.map quoted fields))
  = Ok (mkReader QUOTE_IN_QUOTED_FIELD (fs ++ List.removelast fields)
          (List.last fields [])).
Proof.
  revert fs. induction fields as [|x fields IH]; intros fs Hne Hall; [congruence|].
  inversion Hall as [|? ? [Hx Hlen] Hrest]; subst.
  destruct fields as [|y fields].
  - cbn [List.map join List.removelast List.last]. rewrite app_nil_r.
    now apply quoted_field.
  - change (join [comma] (List.map quoted (x :: y :: fields)))
      with (quoted x ++ [comma] ++ join [comma] (List.map quoted (y :: fields))).
    rewrite CsvPlain.process_line_app, quoted_field by assumption.
    cbn [res_bind app process_line].
    change (comma =? NUL) with false. cbn iota.
    change (parse_process_char (mkReader QUOTE_IN_QUOTED_FIELD fs x) comma)
      with (Ok (mkReader START_FIELD (fs ++ [x]) [])).
    cbn [res_bind]. rewrite IH by (assumption || discriminate).
    rewrite <- app_assoc. reflexivity.
Qed.

Lemma In_join_quoted c fields :
  In c (join [comma] (List.map quoted fields)) ->
  c = comma \/ c = dquote \/ exists s, In s fields /\ In c s.
Proof.
  induction fields as [|x fields IH]; [intros []|].
  assert (Hq : In c (quoted x) -> c = dquote \/ In c x).
  { unfold quoted. intros [H|H]; [auto|].
    apply in_app_or in H as [H|[H|[]]]; auto. }
  destruct fields as [|y fields].
  - cbn [List.map join]. intros H. apply Hq in H as [H|H]; [auto|].
    right. right. exists x. split; [now left|assumption].
  - change (join [comma] (List.map quoted (x :: y :: fields)))
      with (quoted x ++ [comma] ++ join [comma] (List.map quoted (y :: fields))).
    intros H. apply in_app_or in H as [H|H].
    + apply Hq in H as [H|H]; [auto|].
      right. right. exists x. split; [now left|assumption].
    + apply in_app_or in H as [[H|[]]|H]; [auto|].
      apply IH in H as [H|[H|(s & Hs & Hc)]]; [auto..|].
      right. right. exists s. split; [now right|assumption].
Qed.

Lemma first_row_quoted fields :
  fields <> [] ->
  Forall (fun s => forallb inside s = true /\
                   N.of_nat (length s) <= field_limit) fields ->
  first_row (record fields) = Ok fields.
Proof.
  intros Hne Hall. unfold first_row, record, row.
  rewrite CsvPlain.StringIO_one_line.
  2:{ intros H. apply In_join_quoted in H as [H|[H|(s & Hs & Hc)]];
        try discriminate H.
      rewrite List.Forall_forall in Hall. destruct (Hall s Hs) as [Hi _].
      rewrite forallb_forall in Hi. specialize (Hi LF Hc).
      vm_compute in Hi. discriminate Hi. }
  cbn [app Reader_iternext_loop].
  assert (Hstart :
    process_line parse_reset (join [comma] (List.map quoted fields) ++ [LF])
    = process_line (mkReader START_FIELD [] [])
        (join [comma] (List.map quoted fields) ++ [LF])).
  { destruct fields as [|x [|y fields]]; [congruence|reflexivity..]. }
  rewrite Hstart, CsvPlain.process_line_app, quoted_fields by assumption.
  cbn [res_bind app process_line]. change (LF =? NUL) with false. cbn iota.
  change (parse_process_char
            (mkReader QUOTE_IN_QUOTED_FIELD ([] ++ List.removelast fields)
               (List.last fields [])) LF)
    with (Ok (mkReader EAT_CRNL
                (([] ++ List.removelast fields) ++ [List.last fields []]) [])).
  cbn [res_bind]. unfold parse_process_char. cbn.
  now rewrite <- app_removelast_last.
Qed.

End CsvQuoted.

(** X19: a line of fields each between double quotes, whatever commas
    the fields hold, is read back as exactly these fields: they become
    the stored headers, and the timestamp is the position of the first
    field with a timestamp marker. *)
Theorem find_columns_quoted_record fields self :
  fields <> [] ->
  Forall (fun s => forallb inside s = true /\
                   (N.of_nat (length s) <= Csv.field_limit)%N) fields ->
  Csv.first_row (record fields) = Ok fields /\
  headers (find_columns (record fields) self).2 = Some fields /\
  timestamp (find_columns (record fields) self).2 = find_col_timestamp fields.
Proof.
  intros Hne Hall.
  pose proof (CsvQuoted.first_row_quoted fields Hne Hall) as Hrow.
  split; [exact Hrow|]. now apply find_columns_headers.
Qed.

Lemma find_columns_quoted_record_witness :
  let fields := [str "#"; str "Date Time, GMT+00:00";
                 str "Temp, °C (LGR S/N: 20563204, SEN S/N: 20563204)"] in
  Csv.first_row (record fields) = Ok fields /\
  headers (find_columns (record fields) new_Hobo).2 = Some fields /\
  timestamp (find_columns (record fields) new_Hobo).2 = Some 1%nat.
Proof.
  intros fields.
  apply (find_columns_quoted_record fields new_Hobo); [discriminate|].
  repeat constructor; vm_compute; (reflexivity || discriminate).
Defined.

(** ** The timestamp position of a returned scan *)

(** X20: when the scan returns, the stored timestamp position is a
    valid index into the stored headers, the field at that position
    holds a timestamp marker and no field before it does. *)
Theorem find_headers_timestamp_in_range self h s' :
  timestamp self = None ->
  find_headers self = (Ok h, s') ->
  exists hs i,
    headers s' = Some hs /\ timestamp s' = Some i /\
    (i < length hs)%nat /\
    is_timestamp (nth i hs []) = true /\
    (forall j, (j < i)%nat -> is_timestamp (nth j hs []) = false).
Proof.
  intros Ht H.
  apply (find_headers_loop_Ok (f self) None self h s' eq_refl Ht) in H
    as (pre & hs & i & _ & _ & _ & Hi & Hts & Hrow & Hhs).
  unfold line_timestamp in Hi. rewrite Hrow in Hi.
  pose proof (find_col_timestamp_from_spec 0 hs) as Hspec.
  unfold find_col_timestamp in Hi. rewrite Hi in Hspec.
  destruct Hspec as (bf & x & af & -> & -> & Hx & Hbf).
  exists (bf ++ x :: af), (length bf). cbn [Nat.add].
  split; [assumption|]. split; [assumption|]. split; [|split].
  - rewrite length_app. cbn [length]. lia.
  - rewrite app_nth2, Nat.sub_diag by lia. exact Hx.
  - intros j Hj. rewrite app_nth1 by assumption.
    rewrite List.Forall_forall in Hbf. apply Hbf. now apply nth_In.
Qed.

Lemma find_headers_timestamp_in_range_witness :
  let s' := (find_headers (prepared sample_file new_Hobo)).2 in
  exists hs i,
    headers s' = Some hs /\ timestamp s' = Some i /\
    (i < length hs)%nat /\
    is_timestamp (nth i hs []) = true /\
    (forall j, (j < i)%nat -> is_timestamp (nth j hs []) = false).
Proof.
  intros s'.
  apply (find_headers_timestamp_in_range (prepared sample_file new_Hobo)
           (nth 1 sample_file []) s').
  - reflexivity.
  - vm_compute. reflexivity.
Defined.

(** ** The scan of a file whose reading fails *)

Lemma find_headers_loop_until_agrees stop file header self :
  f self = file ->
  find_headers_loop_until stop file header self
  = find_headers_loop file header self \/
  exists s,
    f s = [] /\ timestamp s = None /\
    find_headers_loop file header self = (Err StopIteration, s) /\
    find_headers_loop_until stop file header self = (Err (next_raises stop), s).
Proof.
  revert header self. induction file as [|line rest IH]; intros header self Hf.
  - cbn. destruct (timestamp self) eqn:Et; [now left|]. right. now exists self.
  - destruct (timestamp self) eqn:Et.
    + left. cbn. now rewrite Et.
    + rewrite find_headers_loop_until_step, find_headers_loop_step by assumption.
      pose proof (scan_line_f line (set_f rest self)) as Hs.
      destruct (scan_line line (set_f rest self)) as [[[]|e1] s1];
        [apply IH; exact Hs|now left].
Qed.

(** X21: the scan of a file whose reading fails after the lines of [f]
    goes as the scan of the file that ends after these lines, up to the
    moment the lines are used up: the two return or raise the same and
    leave the same attributes, unless the scan uses up every line
    without finding a timestamp column, where the one raises
    [StopIteration] and the other the error of the read, from the same
    attributes.  In particular a returned scan is the same for both. *)
Theorem find_headers_until_agrees stop self :
  (find_headers_until stop self = find_headers self \/
   exists s,
     f s = [] /\ timestamp s = None /\
     find_headers self = (Err StopIteration, s) /\
     find_headers_until stop self = (Err (next_raises stop), s)) /\
  (forall h s, find_headers self = (Ok h, s) ->
               find_headers_until stop self = (Ok h, s)) /\
  find_headers_until EndOfFile self = find_headers self.
Proof.
  pose proof (fun stop' =>
    find_headers_loop_until_agrees stop' (f self) None self eq_refl) as H.
  unfold find_headers_until, find_headers.
  split; [|split].
  - apply (H stop).
  - intros h s E. destruct (H stop) as [E'|(s0 & _ & _ & E1 & _)]; congruence.
  - destruct (H EndOfFile) as [E|(s & _ & _ & E1 & E2)]; [exact E|].
    cbn [next_raises] in E2. congruence.
Qed.
